(** * Launch templates of the Azure Karpenter provider

    A shallow embedding of [pkg/providers/launchtemplate/launchtemplate.go]:
    the virtual-network label resolver ([getVnetLabelValues]), the tag merger
    ([mergeTags]), the static parameter builder ([getStaticParameters]) and
    the template provider ([GetTemplate], [createLaunchTemplate]).

    Go maps are reference objects, so the embedding keeps a store of maps and
    passes references around; a Go function is a state transformer over that
    store which either returns or panics.  Map contents are [gmap]s. *)

From stdpp Require Import gmap strings list fin_maps sorting.
From Stdlib Require Import ZArith Ascii String.

Local Open Scope string_scope.
Local Open Scope Z_scope.
Local Open Scope list_scope.

#[local] Set Warnings "-clear-no-such-hyp".

(** ** The [strings] package of the Go standard library

    Go strings are byte sequences and so are Rocq's.  The source only ever
    passes one-byte separators and patterns (["/"], ["_"]), so the two
    functions take bytes. *)

Module Strings.

(** [strings.Split(s, sep)] for a one-byte [sep]: the substrings between the
    separators; a string without separator, also the empty one, gives a
    slice of length one. *)
Fixpoint Split (s : string) (sep : ascii) : list string :=
  match s with
  | EmptyString => [EmptyString]
  | String c rest =>
      if Ascii.eqb c sep then EmptyString :: Split rest sep
      else match Split rest sep with
           | [] => [String c EmptyString]
           | part :: parts => String c part :: parts
           end
  end.

(** [strings.ReplaceAll(s, old, new)] for one-byte [old] and [new]. *)
Fixpoint ReplaceAll (s : string) (old new : ascii) : string :=
  match s with
  | EmptyString => EmptyString
  | String c rest =>
      String (if Ascii.eqb c old then new else c) (ReplaceAll rest old new)
  end.

(** [strings.ContainsRune(s, c)] for a one-byte [c]. *)
Fixpoint Contains (s : string) (c : ascii) : bool :=
  match s with
  | EmptyString => false
  | String c' rest => Ascii.eqb c' c || Contains rest c
  end.

End Strings.

(** ** The Go runtime: panics and references *)

(** A run-time panic of the two kinds the source can raise. *)
Inductive panic :=
  | NilDereference                      (* invalid memory address or nil pointer dereference *)
  | IndexOutOfRange (i : Z) (n : nat).  (* index out of range [i] with length n *)

(** How the evaluation of a Go expression or call ends. *)
Inductive outcome (A : Type) :=
  | Returns (a : A)
  | Panics (p : panic).
Arguments Returns {A} a.
Arguments Panics {A} p.

(** Go's [error] interface, identified with the text of [Error()]. *)
Definition error := string.

(** A reference to a map object: [None] is the nil map. *)
Definition loc := positive.
Definition mapref := option loc.

(** ** The data the provider works on

    Struct declarations of the packages the source imports, with the fields
    the source reads or writes.  A [map[string]string] or [map[string]*string]
    field holds a reference. *)

Module v1alpha2.
Record AKSNodeClassSpec := {
  VnetSubnetID : option string;   (* *string *)
  Tags : mapref;
}.
Record AKSNodeClass := { Spec : AKSNodeClassSpec }.
End v1alpha2.

Module corev1beta1.
Record NodeClaim := { Labels : mapref }.
Definition ArchitectureAmd64 : string := "amd64".
Definition ArchitectureArm64 : string := "arm64".
End corev1beta1.

Module options.
(** [GetAPIServerName] is a method without arguments; the field holds what
    it returns. *)
Record Options := {
  ClusterName : string;
  ClusterID : string;
  KubeletClientTLSBootstrapToken : string;
  NetworkPlugin : string;
  NetworkPolicy : string;
  GetAPIServerName : string;
}.
End options.

(** [pkg/utils]: the classification of SKU names, taken as given. *)
Module utils.
Record Classifier := {
  IsNvidiaEnabledSKU : string → bool;
  GetGPUDriverVersion : string → string;
  GetAKSGPUImageSHA : string → string;
}.
End utils.

Module parameters.
Record StaticParameters := {
  ClusterName : string;
  ClusterEndpoint : string;
  Tags : mapref;
  Labels : mapref;
  CABundle : option string;
  Arch : string;
  GPUNode : bool;
  GPUDriverVersion : string;
  GPUImageSHA : string;
  TenantID : string;
  SubscriptionID : string;
  UserAssignedIdentityID : string;
  ResourceGroup : string;
  Location : string;
  ClusterID : string;
  APIServerName : string;
  KubeletClientTLSBootstrapToken : string;
  NetworkPlugin : string;
  NetworkPolicy : string;
  KubernetesVersion : string;
}.

Definition with_KubernetesVersion (sp : StaticParameters) (v : string) : StaticParameters :=
  {| ClusterName := ClusterName sp; ClusterEndpoint := ClusterEndpoint sp;
     Tags := Tags sp; Labels := Labels sp; CABundle := CABundle sp;
     Arch := Arch sp; GPUNode := GPUNode sp;
     GPUDriverVersion := GPUDriverVersion sp; GPUImageSHA := GPUImageSHA sp;
     TenantID := TenantID sp; SubscriptionID := SubscriptionID sp;
     UserAssignedIdentityID := UserAssignedIdentityID sp;
     ResourceGroup := ResourceGroup sp; Location := Location sp;
     ClusterID := ClusterID sp; APIServerName := APIServerName sp;
     KubeletClientTLSBootstrapToken := KubeletClientTLSBootstrapToken sp;
     NetworkPlugin := NetworkPlugin sp; NetworkPolicy := NetworkPolicy sp;
     KubernetesVersion := v |}.

(** The resolver's result, with the fields [createLaunchTemplate] reads.
    [UserData] is a [bootstrap.Bootstrapper]; the source only calls its
    [Script()] method, so the object is represented by what that call
    returns: the script and the error. *)
Record Parameters := {
  UserData : string * option error;
  ImageID : string;
  PTags : mapref;
  PClusterName : string;
}.
End parameters.

(** ** The state of a run *)

(** A call of the provider to one of its collaborators. *)
Inductive call :=
  | KubeServerVersionCall
  | ResolveCall (staticParameters : parameters.StaticParameters)
  | ScriptCall.

(** The state a call runs in: the process environment ([os.Getenv]), the
    [map[string]string] objects, the [map[string]*string] objects (a
    [*string] is [None] for nil and [Some s] for a pointer to [s]) and the
    collaborator calls made so far, oldest first. *)
Record world := World {
  environ : gmap string string;
  maps : gmap loc (gmap string string);
  ptrmaps : gmap loc (gmap string (option string));
  calls : list call;
}.

(** A Go computation: from a state to an outcome and the state it leaves. *)
Definition go (A : Type) : Type := world → outcome A * world.

Definition ret {A} (a : A) : go A := λ w, (Returns a, w).

Definition bind {A B} (c : go A) (k : A → go B) : go B :=
  λ w, match c w with
       | (Returns a, w') => k a w'
       | (Panics p, w') => (Panics p, w')
       end.

Definition throw {A} (p : panic) : go A := λ w, (Panics p, w).

#[global] Instance go_ret : MRet go := @ret.
#[global] Instance go_bind : MBind go := λ A B k c, bind c k.

(** [*p] for a pointer [p] to a string. *)
Definition deref (p : option string) : go string :=
  match p with
  | Some s => ret s
  | None => throw NilDereference
  end.

(** [a[i]] for a slice [a]: the bounds check of the runtime. *)
Definition index (a : list string) (i : Z) : go string :=
  if bool_decide (0 ≤ i < Z.of_nat (List.length a))
  then ret (nth (Z.to_nat i) a EmptyString)
  else throw (IndexOutOfRange i (List.length a)).

(** [os.Getenv(key)]: the empty string when the variable is unset. *)
Definition Getenv (key : string) : go string :=
  λ w, (Returns (default EmptyString (environ w !! key)), w).

(** The contents of the map behind a reference, as a range or an index
    expression sees them; the nil map reads as empty. *)
Definition load (w : world) (r : mapref) : gmap string string :=
  match r with
  | Some l => default ∅ (maps w !! l)
  | None => ∅
  end.

Definition load_ptrs (w : world) (r : mapref) : gmap string (option string) :=
  match r with
  | Some l => default ∅ (ptrmaps w !! l)
  | None => ∅
  end.

(** The state after a map object is stored at [l], and after a call is
    logged. *)
Definition store (l : loc) (m : gmap string string) (w : world) : world :=
  World (environ w) (<[l := m]> (maps w)) (ptrmaps w) (calls w).

Definition store_ptrs (l : loc) (m : gmap string (option string)) (w : world) : world :=
  World (environ w) (maps w) (<[l := m]> (ptrmaps w)) (calls w).

Definition logged (c : call) (w : world) : world :=
  World (environ w) (maps w) (ptrmaps w) (calls w ++ [c]).

(** [make] or a map literal: a new map object at an unused address. *)
Definition alloc (m : gmap string string) : go mapref :=
  λ w, let l := fresh (dom (maps w)) in (Returns (Some l), store l m w).

Definition alloc_ptrs (m : gmap string (option string)) : go mapref :=
  λ w, let l := fresh (dom (ptrmaps w)) in (Returns (Some l), store_ptrs l m w).

(** Records that a collaborator is called. *)
Definition record (c : call) : go unit := λ w, (Returns tt, logged c w).

(** ** Dependencies of the source *)

(** [github.com/samber/lo]. *)
Module lo.

(** [lo.Ternary]: an ordinary function, so both branches are evaluated by
    the caller before the call. *)
Definition Ternary {T} (condition : bool) (ifOutput elseOutput : T) : T :=
  if condition then ifOutput else elseOutput.

(** What [lo.Assign] stores in its result: the maps are visited from left
    to right and every entry of a map is written over what is there
    ([out[k] = maps[i][k]]). *)
Definition assigned (ms : list (gmap string string)) : gmap string string :=
  foldl (λ out m, m ∪ out) ∅ ms.

(** [lo.Assign(maps...)]: the merge goes to a new map. *)
Definition Assign (ms : list mapref) : go mapref :=
  λ w, alloc (assigned (load w <$> ms)) w.

(** What [lo.MapEntries] stores in its result when the range statement
    yields the entries in the order [entries]:
    [k2, v2 := iteratee(k1, in[k1]); result[k2] = v2]. *)
Definition mapped {V2} (entries : list (string * string))
    (iteratee : string → string → string * V2) : gmap string V2 :=
  foldl (λ result kv, <[(iteratee kv.1 kv.2).1 := (iteratee kv.1 kv.2).2]> result)
        ∅ entries.

(** [lo.MapEntries(in, iteratee)] for a [map[string]string] turned into a
    [map[string]*string]; [range] is the order in which the runtime
    iterates over a map. *)
Definition MapEntries (range : gmap string string → list (string * string))
    (in_ : mapref) (iteratee : string → string → string * option string) : go mapref :=
  λ w, alloc_ptrs (mapped (range (load w in_)) iteratee) w.

End lo.

(** [github.com/Azure/go-autorest/autorest/to]. *)
Module to.
(** [to.StringPtr(s)]: a pointer to a copy of [s]. *)
Definition StringPtr (s : string) : option string := Some s.
End to.

(** [k8s.io/api/core/v1]. *)
Module v1.
Inductive NodeSelectorOperator :=
  | NodeSelectorOpIn | NodeSelectorOpNotIn
  | NodeSelectorOpExists | NodeSelectorOpDoesNotExist
  | NodeSelectorOpGt | NodeSelectorOpLt.
Definition LabelArchStable : string := "kubernetes.io/arch".
End v1.

(** [strconv.Atoi]: an optional sign and decimal digits, within the range of
    a 64-bit [int]. *)
Module strconv.

Definition digit (c : ascii) : option Z :=
  let n := Z.of_nat (nat_of_ascii c) in
  if bool_decide (48 ≤ n ≤ 57) then Some (n - 48) else None.

Fixpoint digits (s : string) (acc : Z) : option Z :=
  match s with
  | EmptyString => Some acc
  | String c rest =>
      match digit c with
      | Some d => digits rest (10 * acc + d)
      | None => None
      end
  end.

Definition MaxInt64 : Z := 9223372036854775807.

Definition in_range (n : Z) : option Z :=
  if bool_decide (- MaxInt64 - 1 ≤ n ≤ MaxInt64) then Some n else None.

Definition Atoi (s : string) : option Z :=
  match s with
  | EmptyString => None
  | String c rest =>
      if Ascii.eqb c "+" then
        match rest with EmptyString => None | _ => digits rest 0 ≫= in_range end
      else if Ascii.eqb c "-" then
        match rest with
        | EmptyString => None
        | _ => digits rest 0 ≫= λ n, in_range (- n)
        end
      else digits s 0 ≫= in_range
  end.

(** The number [Atoi] returns beside its error: zero for a malformed
    string, the nearest bound for a number out of range. *)
Definition clamped (n : Z) : Z := Z.max (- MaxInt64 - 1) (Z.min MaxInt64 n).

Definition AtoiValue (s : string) : Z :=
  match s with
  | EmptyString => 0
  | String c rest =>
      if Ascii.eqb c "+" then from_option clamped 0 (digits rest 0)
      else if Ascii.eqb c "-" then from_option (λ n, clamped (- n)) 0 (digits rest 0)
      else from_option clamped 0 (digits s 0)
  end.

End strconv.

(** [sigs.k8s.io/karpenter/pkg/scheduling]: requirements on node labels.  A
    requirement is a set of admitted values, given by its members or, when
    [complement] is set, by the values it excludes, with optional integer
    bounds. *)
Module scheduling.

Record Requirement := {
  Key : string;
  complement : bool;
  values : gset string;
  greaterThan : option Z;
  lessThan : option Z;
}.

Abbreviation Requirements := (gmap string Requirement).

Definition NormalizedLabels : gmap string string :=
  list_to_map
    [("failure-domain.beta.kubernetes.io/zone", "topology.kubernetes.io/zone");
     ("beta.kubernetes.io/arch", "kubernetes.io/arch");
     ("beta.kubernetes.io/os", "kubernetes.io/os");
     ("beta.kubernetes.io/instance-type", "node.kubernetes.io/instance-type");
     ("failure-domain.beta.kubernetes.io/region", "topology.kubernetes.io/region")].

(** [NewRequirement(key, operator, values...)].  For [Gt] and [Lt] the
    bound is the number [strconv.Atoi] returns for the first operand, its
    error dropped.  The library indexes the operands without a check and
    panics when there is none; the provider only builds [In] requirements,
    and this function, which has no failure, takes the bound zero there. *)
Definition NewRequirement (key : string) (operator : v1.NodeSelectorOperator)
    (vals : list string) : Requirement :=
  let key := default key (NormalizedLabels !! key) in
  let bound := from_option strconv.AtoiValue 0 (head vals) in
  match operator with
  | v1.NodeSelectorOpIn => Build_Requirement key false (list_to_set vals) None None
  | v1.NodeSelectorOpNotIn => Build_Requirement key true (list_to_set vals) None None
  | v1.NodeSelectorOpExists => Build_Requirement key true ∅ None None
  | v1.NodeSelectorOpDoesNotExist => Build_Requirement key false ∅ None None
  | v1.NodeSelectorOpGt => Build_Requirement key true ∅ (Some bound) None
  | v1.NodeSelectorOpLt => Build_Requirement key true ∅ None (Some bound)
  end.

Definition Len (r : Requirement) : Z :=
  if complement r then strconv.MaxInt64 - Z.of_nat (size (values r))
  else Z.of_nat (size (values r)).

(** [Gt] and [Lt] are reported as [Exists] with bounds. *)
Definition Operator (r : Requirement) : v1.NodeSelectorOperator :=
  if complement r then
    if bool_decide (Len r < strconv.MaxInt64) then v1.NodeSelectorOpNotIn
    else v1.NodeSelectorOpExists
  else
    if bool_decide (0 < Len r) then v1.NodeSelectorOpIn
    else v1.NodeSelectorOpDoesNotExist.

Definition maxIntPtr (a b : option Z) : option Z :=
  match a, b with
  | None, _ => b
  | _, None => a
  | Some x, Some y => if bool_decide (y ≤ x) then a else b
  end.

Definition minIntPtr (a b : option Z) : option Z :=
  match a, b with
  | None, _ => b
  | _, None => a
  | Some x, Some y => if bool_decide (x ≤ y) then a else b
  end.

(** With a bound set, a value that is not an integer is outside. *)
Definition withinIntPtrs (valueAsString : string) (gt lt : option Z) : bool :=
  match gt, lt with
  | None, None => true
  | _, _ =>
      match strconv.Atoi valueAsString with
      | None => false
      | Some value =>
          match gt with Some g => bool_decide (g < value) | None => true end
          && match lt with Some l => bool_decide (value < l) | None => true end
      end
  end.

Definition Intersection (r requirement : Requirement) : Requirement :=
  let complement' := complement r && complement requirement in
  let gt := maxIntPtr (greaterThan r) (greaterThan requirement) in
  let lt := minIntPtr (lessThan r) (lessThan requirement) in
  if match gt, lt with Some g, Some l => bool_decide (l ≤ g) | _, _ => false end
  then NewRequirement (Key r) v1.NodeSelectorOpDoesNotExist []
  else
    let vals :=
      match complement r, complement requirement with
      | true, true => values r ∪ values requirement
      | true, false => values requirement ∖ values r
      | false, true => values r ∖ values requirement
      | false, false => values r ∩ values requirement
      end in
    let vals := filter (λ value, withinIntPtrs value gt lt = true) vals in
    if complement'
    then Build_Requirement (Key r) complement' vals gt lt
    else Build_Requirement (Key r) complement' vals None None.

(** [r.Add(requirement)] and [NewRequirements(requirements...)]. *)
Definition Add (r : Requirements) (requirement : Requirement) : Requirements :=
  match r !! Key requirement with
  | Some existing => <[Key requirement := Intersection requirement existing]> r
  | None => <[Key requirement := requirement]> r
  end.

Definition NewRequirements (requirements : list Requirement) : Requirements :=
  foldl Add ∅ requirements.

Definition Has (r : Requirements) (key : string) : bool :=
  bool_decide (is_Some (r !! key)).

(** An undefined key admits every value. *)
Definition Get (r : Requirements) (key : string) : Requirement :=
  default (NewRequirement key v1.NodeSelectorOpExists []) (r !! key).

Definition excludes (operator : v1.NodeSelectorOperator) : bool :=
  match operator with
  | v1.NodeSelectorOpNotIn | v1.NodeSelectorOpDoesNotExist => true
  | _ => false
  end.

(** [r.Intersects(requirements)], as the set of the keys an error is
    reported for: the keys defined on both sides whose requirements share
    no value, unless both sides exclude values.  The error returned is nil
    exactly when the set is empty. *)
Definition Intersects (r requirements : Requirements) : gset string :=
  filter (λ key,
            Len (Intersection (Get r key) (Get requirements key)) = 0
            ∧ ¬ (excludes (Operator (Get requirements key)) = true
                 ∧ excludes (Operator (Get r key)) = true))
         (dom r ∩ dom requirements).

(** [r.Compatible(requirements)], as the set of the keys an error is
    reported for.  A key of [requirements] outside [allowUndefined] must be
    defined by [r] unless the requirement excludes values; then the
    requirements must intersect.  [allowUndefined] is the set of labels the
    library accepts undefined: its well-known labels in the releases where
    the set is fixed, the option passed by the caller (none here) in the
    releases where it is an option. *)
Definition Compatible (allowUndefined : gset string) (r requirements : Requirements)
    : gset string :=
  filter (λ key, ¬ (Has r key = true
                    ∨ excludes (Operator (Get requirements key)) = true))
         (dom requirements ∖ allowUndefined)
  ∪ Intersects r requirements.

End scheduling.

(** [sigs.k8s.io/karpenter/pkg/cloudprovider]. *)
Module cloudprovider.
Record InstanceType := {
  Name : string;
  Requirements : scheduling.Requirements;
}.
End cloudprovider.

(** ** The launch template provider *)

Module launchtemplate.

Import v1alpha2 parameters.

Definition karpenterManagedTagKey : string := "karpenter.azure.com/cluster".

(** AzureCNI VNET labels. *)
Definition vnetDataPlaneLabel : string := "kubernetes.azure.com/ebpf-dataplane".
Definition vnetNetworkNameLabel : string := "kubernetes.azure.com/network-name".
Definition vnetSubnetNameLabel : string := "kubernetes.azure.com/network-subnet".
Definition vnetSubscriptionIDLabel : string := "kubernetes.azure.com/network-subscription".
Definition vnetGUIDLabel : string := "kubernetes.azure.com/nodenetwork-vnetguid".
Definition vnetPodNetworkTypeLabel : string := "kubernetes.azure.com/podnetwork-type".

Definition ciliumNetworkPlugin : string := "cilium".
Definition overlayNetworkType : string := "overlay".

Record Template := {
  UserData : string;
  ImageID : string;
  Tags : mapref;     (* map[string]*string *)
}.

(** The request context; the source reads the operator options off it. *)
Record Context := { FromContext : options.Options }.

(** The provider.  The image family resolver and the image provider are
    represented by the one method the source calls on each: [Resolve] and
    [KubeServerVersion], with Go's pair of a result and an error. *)
Record Provider := {
  imageFamily : Context → AKSNodeClass → corev1beta1.NodeClaim →
                cloudprovider.InstanceType → StaticParameters →
                option Parameters * option error;
  imageProvider : Context → string * option error;
  caBundle : option string;
  clusterEndpoint : string;
  tenantID : string;
  subscriptionID : string;
  userAssignedIdentityID : string;
  resourceGroup : string;
  location : string;
}.

Section Provider.

(** The order in which the runtime ranges over a map: unspecified by the
    language, any enumeration of the entries. *)
Variable range : gmap string string → list (string * string).

(** The labels [Requirements.Compatible] accepts undefined. *)
Variable allowUndefined : gset string.

(** The functions of [pkg/utils]. *)
Variable skus : utils.Classifier.

(** The six labels, from the parts of the subnet identifier and the
    virtual-network GUID. *)
Definition vnetLabels (networkName subnetName subscriptionID guid : string)
    : gmap string string :=
  list_to_map
    [(vnetDataPlaneLabel, ciliumNetworkPlugin);
     (vnetNetworkNameLabel, networkName);
     (vnetSubnetNameLabel, subnetName);
     (vnetSubscriptionIDLabel, subscriptionID);
     (vnetGUIDLabel, guid);
     (vnetPodNetworkTypeLabel, overlayNetworkType)].

(** [getVnetLabelValues].  The operands of [lo.Ternary] are evaluated
    before the call, the dereference included. *)
Definition getVnetLabelValues (nodeClass : AKSNodeClass) : go mapref :=
  let condition := bool_decide (VnetSubnetID (Spec nodeClass) ≠ None) in
  ifOutput ← deref (VnetSubnetID (Spec nodeClass));
  elseOutput ← Getenv "AZURE_SUBNET_ID";
  let vnetSubnetID := lo.Ternary condition ifOutput elseOutput in
  let vnetSubnetParts := Strings.Split vnetSubnetID "/" in
  let len := Z.of_nat (List.length vnetSubnetParts) in
  networkName ← index vnetSubnetParts (len - 3);
  subnetName ← index vnetSubnetParts (len - 1);
  subscriptionID ← index vnetSubnetParts 2;
  guid ← Getenv "AZURE_VNET_GUID";
  alloc (vnetLabels networkName subnetName subscriptionID guid).

(** [mergeTags]. *)
Definition mergeTags (tags : list mapref) : go mapref :=
  merged ← lo.Assign tags;
  lo.MapEntries range merged
    (λ key value, (Strings.ReplaceAll key "/" "_", to.StringPtr value)).

(** [getStaticParameters]. *)
Definition getStaticParameters (p : Provider) (ctx : Context)
    (instanceType : cloudprovider.InstanceType) (nodeClass : AKSNodeClass)
    (labels : mapref) : go StaticParameters :=
  let arch := corev1beta1.ArchitectureAmd64 in
  let arch :=
    if decide (scheduling.Compatible allowUndefined
                 (cloudprovider.Requirements instanceType)
                 (scheduling.NewRequirements
                    [scheduling.NewRequirement v1.LabelArchStable v1.NodeSelectorOpIn
                       [corev1beta1.ArchitectureArm64]]) = ∅)
    then corev1beta1.ArchitectureArm64 else arch in
  vnet ← getVnetLabelValues nodeClass;
  labels ← lo.Assign [labels; vnet];
  mret {|
    ClusterName := options.ClusterName (FromContext ctx);
    ClusterEndpoint := clusterEndpoint p;
    parameters.Tags := v1alpha2.Tags (Spec nodeClass);
    Labels := labels;
    CABundle := caBundle p;
    Arch := arch;
    GPUNode := utils.IsNvidiaEnabledSKU skus (cloudprovider.Name instanceType);
    GPUDriverVersion := utils.GetGPUDriverVersion skus (cloudprovider.Name instanceType);
    GPUImageSHA := utils.GetAKSGPUImageSHA skus (cloudprovider.Name instanceType);
    TenantID := tenantID p;
    SubscriptionID := subscriptionID p;
    UserAssignedIdentityID := userAssignedIdentityID p;
    ResourceGroup := resourceGroup p;
    Location := location p;
    ClusterID := options.ClusterID (FromContext ctx);
    APIServerName := options.GetAPIServerName (FromContext ctx);
    KubeletClientTLSBootstrapToken :=
      options.KubeletClientTLSBootstrapToken (FromContext ctx);
    NetworkPlugin := options.NetworkPlugin (FromContext ctx);
    NetworkPolicy := options.NetworkPolicy (FromContext ctx);
    KubernetesVersion := EmptyString;
  |}.

(** [createLaunchTemplate]; [options] is a pointer. *)
Definition createLaunchTemplate (options : option Parameters)
    : go (option Template * option error) :=
  match options with
  | None => throw NilDereference
  | Some options =>
      (* render user data *)
      _ ← record ScriptCall;
      match parameters.UserData options with
      | (_, Some err) => mret (None, Some err)
      | (userData, None) =>
          (* merge and convert to ARM tags *)
          managed ← alloc {[karpenterManagedTagKey := PClusterName options]};
          azureTags ← mergeTags [PTags options; managed];
          mret (Some {| UserData := userData;
                        ImageID := parameters.ImageID options;
                        Tags := azureTags |}, None)
      end
  end.

(** [GetTemplate]. *)
Definition GetTemplate (p : Provider) (ctx : Context) (nodeClass : AKSNodeClass)
    (nodeClaim : corev1beta1.NodeClaim) (instanceType : cloudprovider.InstanceType)
    (additionalLabels : mapref) : go (option Template * option error) :=
  labels ← lo.Assign [corev1beta1.Labels nodeClaim; additionalLabels];
  staticParameters ← getStaticParameters p ctx instanceType nodeClass labels;
  _ ← record KubeServerVersionCall;
  match imageProvider p ctx with
  | (_, Some err) => mret (None, Some err)
  | (kubeServerVersion, None) =>
      let staticParameters :=
        with_KubernetesVersion staticParameters kubeServerVersion in
      _ ← record (ResolveCall staticParameters);
      match imageFamily p ctx nodeClass nodeClaim instanceType staticParameters with
      | (_, Some err) => mret (None, Some err)
      | (templateParameters, None) =>
          r ← createLaunchTemplate templateParameters;
          match r with
          | (_, Some err) => mret (None, Some err)
          | (launchTemplate, None) => mret (launchTemplate, None)
          end
      end
  end.

End Provider.

End launchtemplate.

Import launchtemplate.

(** ** Vocabulary of the statements *)

(** The map a computation returns, read in the state it leaves; [None] when
    it panics. *)
Definition returned (c : go mapref) (w : world) : option (gmap string string) :=
  match c w with
  | (Returns r, w') => Some (load w' r)
  | (Panics _, _) => None
  end.

Definition returned_ptrs (c : go mapref) (w : world)
    : option (gmap string (option string)) :=
  match c w with
  | (Returns r, w') => Some (load_ptrs w' r)
  | (Panics _, _) => None
  end.

(** A reference a caller can hold in state [w]: nil or an allocated map. *)
Definition valid (w : world) (r : mapref) : Prop :=
  match r with
  | Some l => l ∈ dom (maps w)
  | None => True
  end.

(** [w'] is [w] with more maps allocated and more calls logged: no map
    object of [w] is written to, the environment is the same. *)
Record extends (w w' : world) : Prop := {
  extends_environ : environ w' = environ w;
  extends_maps : maps w ⊆ maps w';
  extends_ptrmaps : ptrmaps w ⊆ ptrmaps w';
  extends_calls : calls w `prefix_of` calls w';
}.

(** A computation that only allocates and logs, whatever its outcome. *)
Definition framed {A} (c : go A) : Prop := ∀ w, extends w (c w).2.

(** The key a tag is stored under. *)
Definition sanitize (key : string) : string := Strings.ReplaceAll key "/" "_".

(** An order in which a map may be iterated. *)
Definition iteration_order (range : gmap string string → list (string * string)) : Prop :=
  ∀ m, range m ≡ₚ map_to_list m.

(** The parts of a subnet identifier the labels are taken from. *)
Definition segments (id : string) : list string := Strings.Split id "/".
Definition segment (id : string) (i : nat) : string := nth i (segments id) EmptyString.

(** What [mergeTags] stores in its result for sources with the contents
    [ms]. *)
Definition merged_tags (range : gmap string string → list (string * string))
    (ms : list (gmap string string)) : gmap string (option string) :=
  lo.mapped (range (lo.assigned ms)) (λ key value, (sanitize key, to.StringPtr value)).

(** The labels for the subnet identifier [id] in state [w]. *)
Definition vnetLabelsOf (id : string) (w : world) : gmap string string :=
  vnetLabels (segment id (List.length (segments id) - 3))
    (segment id (List.length (segments id) - 1)) (segment id 2)
    (default EmptyString (environ w !! "AZURE_VNET_GUID")).

(** The constraint the instance type is tested against. *)
Definition arm64Requirements : scheduling.Requirements :=
  scheduling.NewRequirements
    [scheduling.NewRequirement v1.LabelArchStable v1.NodeSelectorOpIn
       [corev1beta1.ArchitectureArm64]].

(** The architecture the builder detects for an instance type. *)
Definition detectedArch (allowUndefined : gset string) (it : cloudprovider.InstanceType) : string :=
  if decide (scheduling.Compatible allowUndefined (cloudprovider.Requirements it)
               arm64Requirements = ∅)
  then corev1beta1.ArchitectureArm64 else corev1beta1.ArchitectureAmd64.

(** ** The runs of [GetTemplate] *)

Section Runs.
Variable range : gmap string string → list (string * string).
Variable allowUndefined : gset string.
Variable p : Provider.
Variable ctx : Context.
Variable nodeClass : v1alpha2.AKSNodeClass.
Variable nodeClaim : corev1beta1.NodeClaim.
Variable instanceType : cloudprovider.InstanceType.
Variable additionalLabels : mapref.

(** The static parameters [sp] built from state [w] for the subnet
    identifier [id], as found in state [w']: the labels are a new map
    holding the node claim's labels, overridden by the additional labels,
    overridden by the virtual-network labels. *)
Definition built (w : world) (id : string) (sp : parameters.StaticParameters)
    (w' : world) : Prop :=
  ∃ l, parameters.Labels sp = Some l
       ∧ (l ∉ dom (maps w))
       ∧ maps w' !! l
         = Some (vnetLabelsOf id w
                 ∪ (load w additionalLabels ∪ load w (corev1beta1.Labels nodeClaim)))
       ∧ parameters.Arch sp = detectedArch allowUndefined instanceType
       ∧ parameters.Tags sp = v1alpha2.Tags (v1alpha2.Spec nodeClass)
       ∧ parameters.ClusterName sp = options.ClusterName (FromContext ctx).

(** The runs of [GetTemplate] from state [w]: the outcome, the
    collaborators called, in order, and the final state. *)
Inductive run (w : world)
    : outcome (option Template * option error) → list call → world → Prop :=
  | run_unset w' :
      v1alpha2.VnetSubnetID (v1alpha2.Spec nodeClass) = None →
      run w (Panics NilDereference) [] w'
  | run_malformed id w' :
      v1alpha2.VnetSubnetID (v1alpha2.Spec nodeClass) = Some id →
      (List.length (segments id) < 3)%nat →
      run w (Panics (IndexOutOfRange (Z.of_nat (List.length (segments id)) - 3)
                       (List.length (segments id)))) [] w'
  | run_version_fails id sp version err w' :
      v1alpha2.VnetSubnetID (v1alpha2.Spec nodeClass) = Some id →
      (3 ≤ List.length (segments id))%nat →
      built w id sp w' →
      imageProvider p ctx = (version, Some err) →
      run w (Returns (None, Some err)) [KubeServerVersionCall] w'
  | run_resolve_fails id sp version params err w' :
      v1alpha2.VnetSubnetID (v1alpha2.Spec nodeClass) = Some id →
      (3 ≤ List.length (segments id))%nat →
      built w id sp w' →
      imageProvider p ctx = (version, None) →
      imageFamily p ctx nodeClass nodeClaim instanceType
        (parameters.with_KubernetesVersion sp version) = (params, Some err) →
      run w (Returns (None, Some err))
        [KubeServerVersionCall;
         ResolveCall (parameters.with_KubernetesVersion sp version)] w'
  | run_resolve_nil id sp version w' :
      v1alpha2.VnetSubnetID (v1alpha2.Spec nodeClass) = Some id →
      (3 ≤ List.length (segments id))%nat →
      built w id sp w' →
      imageProvider p ctx = (version, None) →
      imageFamily p ctx nodeClass nodeClaim instanceType
        (parameters.with_KubernetesVersion sp version) = (None, None) →
      run w (Panics NilDereference)
        [KubeServerVersionCall;
         ResolveCall (parameters.with_KubernetesVersion sp version)] w'
  | run_script_fails id sp version params script err w' :
      v1alpha2.VnetSubnetID (v1alpha2.Spec nodeClass) = Some id →
      (3 ≤ List.length (segments id))%nat →
      built w id sp w' →
      imageProvider p ctx = (version, None) →
      imageFamily p ctx nodeClass nodeClaim instanceType
        (parameters.with_KubernetesVersion sp version) = (Some params, None) →
      parameters.UserData params = (script, Some err) →
      run w (Returns (None, Some err))
        [KubeServerVersionCall;
         ResolveCall (parameters.with_KubernetesVersion sp version);
         ScriptCall] w'
  | run_template id sp version params script l w' :
      v1alpha2.VnetSubnetID (v1alpha2.Spec nodeClass) = Some id →
      (3 ≤ List.length (segments id))%nat →
      built w id sp w' →
      imageProvider p ctx = (version, None) →
      imageFamily p ctx nodeClass nodeClaim instanceType
        (parameters.with_KubernetesVersion sp version) = (Some params, None) →
      parameters.UserData params = (script, None) →
      l ∉ dom (ptrmaps w) →
      is_Some (ptrmaps w' !! l) →
      (valid w (parameters.PTags params)
       ∨ parameters.PTags params = parameters.Labels sp →
       ptrmaps w' !! l
       = Some (merged_tags range
                 [load w' (parameters.PTags params);
                  {[karpenterManagedTagKey := parameters.PClusterName params]}])) →
      run w (Returns (Some {| UserData := script;
                              ImageID := parameters.ImageID params;
                              Tags := Some l |}, None))
        [KubeServerVersionCall;
         ResolveCall (parameters.with_KubernetesVersion sp version);
         ScriptCall] w'.
End Runs.

(** A requirement admits a value: it is among the values, or not among the
    excluded ones, and within the bounds. *)
Definition admits (r : scheduling.Requirement) (value : string) : Prop :=
  (if scheduling.complement r then value ∉ scheduling.values r
   else value ∈ scheduling.values r)
  ∧ scheduling.withinIntPtrs value (scheduling.greaterThan r) (scheduling.lessThan r) = true.

(** A requirement listing the values of a label. *)
Definition In_requirement (key : string) (vals : list string) : scheduling.Requirement :=
  scheduling.NewRequirement key v1.NodeSelectorOpIn vals.

(** The one requirement of the constraint. *)
Definition arm64Requirement : scheduling.Requirement :=
  scheduling.Build_Requirement v1.LabelArchStable false {[corev1beta1.ArchitectureArm64]}
    None None.

(** ** Inputs of the examples *)

Definition empty_world : world := World ∅ ∅ ∅ [].

Definition nodeClass_of (id : option string) (tags : mapref) : v1alpha2.AKSNodeClass :=
  {| v1alpha2.Spec := {| v1alpha2.VnetSubnetID := id; v1alpha2.Tags := tags |} |}.

Definition subnet1 : string :=
  "/subscriptions/sub1/resourceGroups/rg/providers/Microsoft.Network/virtualNetworks/vnet1/subnets/subnet1".

(** The subnet identifier comes from the environment only. *)
Definition fallback_world : world := World {["AZURE_SUBNET_ID" := subnet1]} ∅ ∅ [].

(** Two maps at the addresses 1 and 2. *)
Definition two_maps (m1 m2 : gmap string string) : world :=
  World ∅ {[1%positive := m1; 2%positive := m2]} ∅ [].

Definition scenario_tags : world :=
  two_maps {["a/b" := "1"]} {["c" := "2"; "a/b" := "3"]}.

(** Both sources hold ["a_b"] and ["a/b"], which are stored under one key. *)
Definition colliding_tags : world :=
  two_maps {["a_b" := "1"; "a/b" := "1"]} {["a_b" := "2"; "a/b" := "3"]}.

Definition example_options : options.Options :=
  {| options.ClusterName := "cluster1"; options.ClusterID := "id1";
     options.KubeletClientTLSBootstrapToken := "token";
     options.NetworkPlugin := "azure"; options.NetworkPolicy := "cilium";
     options.GetAPIServerName := "cluster1.hcp.azmk8s.io" |}.

Definition example_context : Context := {| FromContext := example_options |}.

Definition no_gpu : utils.Classifier :=
  {| utils.IsNvidiaEnabledSKU := λ _, false;
     utils.GetGPUDriverVersion := λ _, EmptyString;
     utils.GetAKSGPUImageSHA := λ _, EmptyString |}.

(** A resolver that passes the cluster name and the tags of the static
    parameters on, as the image family resolver of the repository does. *)
Definition resolved (sp : parameters.StaticParameters) : parameters.Parameters :=
  {| parameters.UserData := ("#!/bin/bash", None);
     parameters.ImageID := "image1";
     parameters.PTags := parameters.Tags sp;
     parameters.PClusterName := parameters.ClusterName sp |}.

Definition provider_of
    (resolve : parameters.StaticParameters → option parameters.Parameters * option error)
    : Provider :=
  {| imageFamily := λ _ _ _ _ sp, resolve sp;
     imageProvider := λ _, ("1.29", None);
     caBundle := None; clusterEndpoint := "https://cluster1";
     tenantID := "tenant"; subscriptionID := "sub1";
     userAssignedIdentityID := "identity"; resourceGroup := "rg";
     location := "westus" |}.

Definition working_provider : Provider := provider_of (λ sp, (Some (resolved sp), None)).
Definition failing_provider : Provider := provider_of (λ _, (None, Some "no image")).

Definition amd64_instance : cloudprovider.InstanceType :=
  {| cloudprovider.Name := "Standard_D2s_v3";
     cloudprovider.Requirements :=
       scheduling.NewRequirements [In_requirement v1.LabelArchStable ["amd64"]] |}.

(** The node class declares the tag ["karpenter.azure.com_cluster"]. *)
Definition marker_tags : world :=
  World ∅ {[1%positive := {["karpenter.azure.com_cluster" := "y"]}]} ∅ [].

Definition reversed (m : gmap string string) : list (string * string) :=
  reverse (map_to_list m).


(** What a run that returns a template leaves in its tags. *)
Definition template_tags (result : outcome (option Template * option error) * world)
    : option (gmap string (option string)) :=
  match result with
  | (Returns (Some tmpl, _), w') => Some (load_ptrs w' (Tags tmpl))
  | _ => None
  end.

Definition both_instance : cloudprovider.InstanceType :=
  {| cloudprovider.Name := "Standard_D2ps_v5";
     cloudprovider.Requirements :=
       scheduling.NewRequirements [In_requirement v1.LabelArchStable ["amd64"; "arm64"]] |}.

(** The node claim's labels at address 1, the additional labels at 2. *)
Definition labelled : world :=
  two_maps {["a" := "claim"; "b" := "claim"; vnetSubnetNameLabel := "claim"]}
           {["b" := "extra"]}.

(** The resolver's tags hold the marker key and its sanitized form. *)
Definition marker_both : world :=
  World ∅ {[1%positive := {["karpenter.azure.com/cluster" := "x";
                            "karpenter.azure.com_cluster" := "y"]}]} ∅ [].

Definition parameters_of (tags : mapref) : parameters.Parameters :=
  {| parameters.UserData := ("#!/bin/bash", None);
     parameters.ImageID := "image1";
     parameters.PTags := tags;
     parameters.PClusterName := "cluster1" |}.

(** The runs the examples look at. *)
Definition labelled_run : outcome (option Template * option error) * world :=
  GetTemplate map_to_list ∅ no_gpu working_provider example_context
    (nodeClass_of (Some subnet1) None) {| corev1beta1.Labels := Some 1%positive |}
    amd64_instance (Some 2%positive) labelled.

Definition tagged_run : outcome (option Template * option error) * world :=
  GetTemplate map_to_list ∅ no_gpu working_provider example_context
    (nodeClass_of (Some subnet1) (Some 2%positive)) {| corev1beta1.Labels := None |}
    amd64_instance None scenario_tags.

Definition marker_run : outcome (option Template * option error) * world :=
  GetTemplate reversed ∅ no_gpu working_provider example_context
    (nodeClass_of (Some subnet1) (Some 1%positive)) {| corev1beta1.Labels := None |}
    amd64_instance None marker_tags.

Definition failing_run : outcome (option Template * option error) * world :=
  GetTemplate map_to_list ∅ no_gpu failing_provider example_context
    (nodeClass_of (Some subnet1) None) {| corev1beta1.Labels := None |}
    amd64_instance None empty_world.

Definition labelled_trace : list call := Eval vm_compute in calls labelled_run.2.
Definition tagged_trace : list call := Eval vm_compute in calls tagged_run.2.

(** ** Further definitions for the statements *)

(** [strings.Join(parts, sep)] for a one-byte [sep]. *)
Fixpoint Join (parts : list string) (sep : ascii) : string :=
  match parts with
  | [] => EmptyString
  | [part] => part
  | part :: rest => (part +:+ String sep (Join rest sep))%string
  end.

(** A subnet identifier in the form Azure gives it. *)
Definition arm_subnet_id (subscription resourceGroup vnet subnet : string) : string :=
  Join [EmptyString; "subscriptions"; subscription; "resourceGroups"; resourceGroup;
        "providers"; "Microsoft.Network"; "virtualNetworks"; vnet; "subnets"; subnet] "/".

(** [os.Setenv(key, value)], for the statements. *)
Definition Setenv (key value : string) (w : world) : world :=
  World (<[key := value]> (environ w)) (maps w) (ptrmaps w) (calls w).

(** [NewProvider]; the context argument is not used. *)
Definition NewProvider
    (imageFamily : Context → v1alpha2.AKSNodeClass → corev1beta1.NodeClaim →
                   cloudprovider.InstanceType → parameters.StaticParameters →
                   option parameters.Parameters * option error)
    (imageProvider : Context → string * option error)
    (caBundle : option string)
    (clusterEndpoint tenantID subscriptionID userAssignedIdentityID resourceGroup
       location : string) : Provider :=
  {| launchtemplate.imageFamily := imageFamily;
     launchtemplate.imageProvider := imageProvider;
     launchtemplate.caBundle := caBundle;
     launchtemplate.clusterEndpoint := clusterEndpoint;
     launchtemplate.tenantID := tenantID;
     launchtemplate.subscriptionID := subscriptionID;
     launchtemplate.userAssignedIdentityID := userAssignedIdentityID;
     launchtemplate.resourceGroup := resourceGroup;
     launchtemplate.location := location |}.

(** A resolver that returns neither parameters nor an error. *)
Definition silent_provider : Provider := provider_of (λ _, (None, None)).

(** No two keys of [m] are stored under one sanitized key. *)
Definition collision_free (m : gmap string string) : Prop :=
  ∀ k k', is_Some (m !! k) → is_Some (m !! k') → sanitize k = sanitize k' → k = k'.

(** * Properties

    ** Strings, [lo.Assign] and [lo.MapEntries] *)

Example Split_empty : Strings.Split EmptyString "/" = [EmptyString].
Proof. reflexivity. Qed.

Example Split_subnet :
  Strings.Split "/subscriptions/sub1/resourceGroups/rg" "/"
  = [EmptyString; "subscriptions"; "sub1"; "resourceGroups"; "rg"].
Proof. reflexivity. Qed.

Example ReplaceAll_key : Strings.ReplaceAll "a/b/c" "/" "_" = "a_b_c".
Proof. reflexivity. Qed.

Section StringFacts.
Implicit Types (s : string) (c old new sep : ascii).

Lemma Split_nonempty s sep : Strings.Split s sep ≠ [].
Proof.
  induction s as [|c s IH]; simpl; [done|].
  destruct (Ascii.eqb c sep); [done|].
  by destruct (Strings.Split s sep).
Qed.

Lemma Split_length s sep : (1 ≤ List.length (Strings.Split s sep))%nat.
Proof.
  pose proof (Split_nonempty s sep) as H.
  destruct (Strings.Split s sep); [done | simpl; lia].
Qed.

Lemma ReplaceAll_Contains s old new :
  old ≠ new → Strings.Contains (Strings.ReplaceAll s old new) old = false.
Proof.
  intros Hne. induction s as [|c s IH]; simpl; [done|].
  rewrite IH, orb_false_r.
  destruct (Ascii.eqb_spec c old) as [->|Hc].
  - by apply Ascii.eqb_neq.
  - by apply Ascii.eqb_neq.
Qed.

Lemma ReplaceAll_id s old new :
  Strings.Contains s old = false → Strings.ReplaceAll s old new = s.
Proof.
  induction s as [|c s IH]; simpl; [done|].
  intros [Hc Hs]%orb_false_elim. by rewrite Hc, IH.
Qed.
End StringFacts.

Section AssignFacts.
Implicit Types (m out : gmap string string) (ms : list (gmap string string)).

Lemma assigned_foldl ms out :
  foldl (λ out m, m ∪ out) out ms = lo.assigned ms ∪ out.
Proof.
  unfold lo.assigned. revert out.
  induction ms as [|m ms IH]; intros out; simpl.
  - by rewrite (left_id_L ∅ (∪)).
  - rewrite IH, (IH (m ∪ ∅)), (right_id_L ∅ (∪)). by rewrite (assoc_L (∪)).
Qed.

Lemma assigned_nil : lo.assigned [] = ∅.
Proof. done. Qed.

Lemma assigned_cons m ms : lo.assigned (m :: ms) = lo.assigned ms ∪ m.
Proof. unfold lo.assigned at 1. simpl. by rewrite assigned_foldl, (right_id_L ∅ (∪)). Qed.

Lemma assigned_app ms1 ms2 :
  lo.assigned (ms1 ++ ms2) = lo.assigned ms2 ∪ lo.assigned ms1.
Proof.
  unfold lo.assigned at 1. rewrite foldl_app. fold (lo.assigned ms1).
  apply assigned_foldl.
Qed.

Lemma assigned_snoc ms m : lo.assigned (ms ++ [m]) = m ∪ lo.assigned ms.
Proof. rewrite assigned_app, assigned_cons, assigned_nil. by rewrite (left_id_L ∅ (∪)). Qed.

(** Later sources win. *)
Lemma assigned_lookup_later ms1 m ms2 k v :
  m !! k = Some v → (∀ m', m' ∈ ms2 → m' !! k = None) →
  lo.assigned (ms1 ++ m :: ms2) !! k = Some v.
Proof.
  intros Hm Hlater. rewrite assigned_app, assigned_cons.
  rewrite <-(assoc_L (∪)). apply lookup_union_Some_raw. right. split.
  - clear Hm. induction ms2 as [|m2 ms2 IH]; [done|].
    rewrite assigned_cons. apply lookup_union_None. split.
    + apply IH. intros m' ?. apply Hlater. by right.
    + apply Hlater. by left.
  - apply lookup_union_Some_raw. by left.
Qed.

Lemma assigned_lookup_Some ms k v :
  lo.assigned ms !! k = Some v → ∃ m, m ∈ ms ∧ m !! k = Some v.
Proof.
  induction ms as [|m ms IH]; [done|].
  rewrite assigned_cons. intros [H|[_ H]]%lookup_union_Some_raw.
  - destruct (IH H) as (m' & ? & ?). exists m'. split; [by right | done].
  - exists m. split; [by left | done].
Qed.

Lemma assigned_lookup_None ms k :
  lo.assigned ms !! k = None ↔ ∀ m, m ∈ ms → m !! k = None.
Proof.
  induction ms as [|m ms IH].
  - split; [by intros ? ? ?%elem_of_nil | done].
  - rewrite assigned_cons, lookup_union_None, IH. split.
    + intros [H1 H2] m' [->|?]%elem_of_cons; auto.
    + intros H. split; [intros m' ?; apply H; by right | apply H; by left].
Qed.

Lemma assigned_dom ms : dom (lo.assigned ms) = ⋃ (dom <$> ms).
Proof.
  induction ms as [|m ms IH]; [by rewrite assigned_nil, dom_empty_L|].
  rewrite assigned_cons, dom_union_L, IH. simpl. apply (comm_L (∪)).
Qed.
End AssignFacts.

Section MapEntriesFacts.
Context {V2 : Type}.
Implicit Types (entries : list (string * string)) (f : string → string → string * V2).

Lemma mapped_snoc entries kv f :
  lo.mapped (entries ++ [kv]) f
  = <[(f kv.1 kv.2).1 := (f kv.1 kv.2).2]> (lo.mapped entries f).
Proof. unfold lo.mapped. by rewrite foldl_app. Qed.

Lemma mapped_lookup_Some entries f k2 v2 :
  lo.mapped entries f !! k2 = Some v2 →
  ∃ k v, (k, v) ∈ entries ∧ f k v = (k2, v2).
Proof.
  induction entries as [|[k v] entries IH] using rev_ind; [done|].
  rewrite mapped_snoc. simpl. intros H.
  destruct (decide ((f k v).1 = k2)) as [<-|Hne].
  - rewrite lookup_insert_eq in H. injection H as <-.
    exists k, v. split; [apply elem_of_app; right; by left | by destruct (f k v)].
  - rewrite lookup_insert_ne in H by done.
    destruct (IH H) as (k' & v' & ? & ?). exists k', v'.
    split; [apply elem_of_app; by left | done].
Qed.

Lemma mapped_lookup_is_Some entries f k v :
  (k, v) ∈ entries → is_Some (lo.mapped entries f !! (f k v).1).
Proof.
  induction entries as [|[k' v'] entries IH] using rev_ind; [by intros ?%elem_of_nil|].
  rewrite mapped_snoc. simpl. intros Hin.
  destruct (decide ((f k' v').1 = (f k v).1)) as [->|Hne].
  - rewrite lookup_insert_eq. eauto.
  - rewrite lookup_insert_ne by done. apply IH.
    apply elem_of_app in Hin as [?|Hin]; [done|].
    apply list_elem_of_singleton in Hin. congruence.
Qed.

(** When every entry sent to the key of [(k, v)] carries the value of
    [(k, v)], the iteration order does not matter for that key. *)
Lemma mapped_lookup_agree entries f k v :
  (k, v) ∈ entries →
  (∀ k' v', (k', v') ∈ entries → (f k' v').1 = (f k v).1 → (f k' v').2 = (f k v).2) →
  lo.mapped entries f !! (f k v).1 = Some (f k v).2.
Proof.
  induction entries as [|[k' v'] entries IH] using rev_ind; [by intros ?%elem_of_nil|].
  rewrite mapped_snoc. simpl. intros Hin Hagree.
  destruct (decide ((f k' v').1 = (f k v).1)) as [Heq|Hne].
  - rewrite Heq, lookup_insert_eq. f_equal.
    apply Hagree; [apply elem_of_app; right; by left | done].
  - rewrite lookup_insert_ne by done. apply IH.
    + apply elem_of_app in Hin as [?|Hin]; [done|].
      apply list_elem_of_singleton in Hin. congruence.
    + intros k'' v'' ? ?. apply Hagree; [apply elem_of_app; by left | done].
Qed.

Lemma mapped_nil f : lo.mapped [] f = ∅.
Proof. done. Qed.
End MapEntriesFacts.

(** ** The runtime *)

Lemma bind_run {A B} (c : go A) (k : A → go B) w :
  (c ≫= k) w = match c w with
               | (Returns a, w') => k a w'
               | (Panics p, w') => (Panics p, w')
               end.
Proof. done. Qed.

Lemma bind_returns {A B} (c : go A) (k : A → go B) w a w' :
  c w = (Returns a, w') → (c ≫= k) w = k a w'.
Proof. intros H. by rewrite bind_run, H. Qed.

Lemma bind_panics {A B} (c : go A) (k : A → go B) w p w' :
  c w = (Panics p, w') → (c ≫= k) w = (Panics p, w').
Proof. intros H. by rewrite bind_run, H. Qed.

Lemma index_in_range a i w :
  0 ≤ i < Z.of_nat (List.length a) →
  index a i w = (Returns (nth (Z.to_nat i) a EmptyString), w).
Proof. intros H. unfold index. by rewrite bool_decide_eq_true_2. Qed.

Lemma index_out_of_range a i w :
  ¬ (0 ≤ i < Z.of_nat (List.length a)) →
  index a i w = (Panics (IndexOutOfRange i (List.length a)), w).
Proof. intros H. unfold index. by rewrite bool_decide_eq_false_2. Qed.

Lemma fresh_map_None {V} (m : gmap loc V) : m !! fresh (dom m) = None.
Proof. apply not_elem_of_dom, is_fresh. Qed.

Lemma load_store w l m : load (store l m w) (Some l) = m.
Proof. unfold load, store. simpl. by rewrite lookup_insert_eq. Qed.

Lemma load_ptrs_store_ptrs w l m : load_ptrs (store_ptrs l m w) (Some l) = m.
Proof. unfold load_ptrs, store_ptrs. simpl. by rewrite lookup_insert_eq. Qed.

(** ** Extension of states *)

Lemma extends_refl w : extends w w.
Proof. by split. Qed.

Lemma extends_trans w1 w2 w3 : extends w1 w2 → extends w2 w3 → extends w1 w3.
Proof.
  intros [] []. split; [congruence | by etrans | by etrans | by etrans].
Qed.

Lemma extends_store w m : extends w (store (fresh (dom (maps w))) m w).
Proof.
  split; simpl; [done | | done | done].
  apply insert_subseteq, fresh_map_None.
Qed.

Lemma extends_store_ptrs w m : extends w (store_ptrs (fresh (dom (ptrmaps w))) m w).
Proof.
  split; simpl; [done | done | | done].
  apply insert_subseteq, fresh_map_None.
Qed.

Lemma extends_logged w c : extends w (logged c w).
Proof. split; simpl; [done | done | done | by apply prefix_app_r]. Qed.

Lemma extends_load w w' r : extends w w' → valid w r → load w' r = load w r.
Proof.
  intros [_ Hmaps _ _] Hr. destruct r as [l|]; [|done]. simpl in *.
  apply elem_of_dom in Hr as [m Hm]. rewrite Hm.
  by rewrite (lookup_weaken _ _ _ _ Hm Hmaps).
Qed.

Lemma extends_valid w w' r : extends w w' → valid w r → valid w' r.
Proof.
  intros [_ Hmaps _ _] Hr. destruct r as [l|]; [|done]. simpl in *.
  by apply (subseteq_dom _ _ Hmaps).
Qed.

Lemma framed_ret {A} (a : A) : framed (mret a : go A).
Proof. intros w. apply extends_refl. Qed.

Lemma framed_throw {A} p : framed (throw p : go A).
Proof. intros w. apply extends_refl. Qed.

Lemma framed_bind {A B} (c : go A) (k : A → go B) :
  framed c → (∀ a, framed (k a)) → framed (c ≫= k).
Proof.
  intros Hc Hk w. rewrite bind_run. specialize (Hc w).
  destruct (c w) as [[a|p] w']; simpl in *; [|done].
  eapply extends_trans; [done | apply Hk].
Qed.

Lemma framed_alloc m : framed (alloc m).
Proof. intros w. apply extends_store. Qed.

Lemma framed_alloc_ptrs m : framed (alloc_ptrs m).
Proof. intros w. apply extends_store_ptrs. Qed.

Lemma framed_record c : framed (record c).
Proof. intros w. apply extends_logged. Qed.

Lemma framed_Getenv key : framed (Getenv key).
Proof. intros w. apply extends_refl. Qed.

Lemma framed_deref p : framed (deref p).
Proof. destruct p; [apply framed_ret | apply framed_throw]. Qed.

Lemma framed_index a i : framed (index a i).
Proof. unfold index. case_bool_decide; [apply framed_ret | apply framed_throw]. Qed.

Lemma framed_Assign ms : framed (lo.Assign ms).
Proof. intros w. apply extends_store. Qed.

Lemma framed_MapEntries range r f : framed (lo.MapEntries range r f).
Proof. intros w. apply extends_store_ptrs. Qed.

Create HintDb framed.
#[local] Hint Resolve framed_ret framed_throw framed_alloc framed_alloc_ptrs framed_record
  framed_Getenv framed_deref framed_index framed_Assign framed_MapEntries : framed.
#[local] Hint Extern 2 (framed (_ ≫= _)) => apply framed_bind; [|intros ?] : framed.

Section Frames.
Variable range : gmap string string → list (string * string).
Variable allowUndefined : gset string.
Variable skus : utils.Classifier.

Lemma framed_getVnetLabelValues nc : framed (getVnetLabelValues nc).
Proof. unfold getVnetLabelValues. auto 20 with framed nocore. Qed.

Lemma framed_mergeTags tags : framed (mergeTags range tags).
Proof. unfold mergeTags. auto 20 with framed nocore. Qed.

Lemma framed_getStaticParameters p ctx it nc labels :
  framed (getStaticParameters allowUndefined skus p ctx it nc labels).
Proof.
  unfold getStaticParameters.
  apply framed_bind; [apply framed_getVnetLabelValues | intros ?].
  auto 20 with framed nocore.
Qed.

Lemma framed_createLaunchTemplate params : framed (createLaunchTemplate range params).
Proof.
  unfold createLaunchTemplate. destruct params as [params|]; [|apply framed_throw].
  apply framed_bind; [apply framed_record | intros _].
  destruct (parameters.UserData params) as [userData [err|]]; [apply framed_ret|].
  apply framed_bind; [apply framed_alloc | intros ?].
  apply framed_bind; [apply framed_mergeTags | intros ?]. apply framed_ret.
Qed.

Lemma framed_GetTemplate p ctx nc claim it extra :
  framed (GetTemplate range allowUndefined skus p ctx nc claim it extra).
Proof.
  unfold GetTemplate.
  apply framed_bind; [apply framed_Assign | intros labels].
  apply framed_bind; [apply framed_getStaticParameters | intros sp].
  apply framed_bind; [apply framed_record | intros _].
  destruct (imageProvider p ctx) as [version [err|]]; [apply framed_ret|].
  apply framed_bind; [apply framed_record | intros _].
  destruct (imageFamily p ctx nc claim it _) as [params [err|]]; [apply framed_ret|].
  apply framed_bind; [apply framed_createLaunchTemplate | intros [tmpl [err|]]];
    apply framed_ret.
Qed.
End Frames.

(** ** The virtual-network labels *)

Lemma getVnetLabelValues_nil nc w :
  v1alpha2.VnetSubnetID (v1alpha2.Spec nc) = None →
  getVnetLabelValues nc w = (Panics NilDereference, w).
Proof. intros H. unfold getVnetLabelValues. by rewrite H. Qed.

Lemma getVnetLabelValues_short nc id w :
  v1alpha2.VnetSubnetID (v1alpha2.Spec nc) = Some id →
  (List.length (segments id) < 3)%nat →
  getVnetLabelValues nc w
  = (Panics (IndexOutOfRange (Z.of_nat (List.length (segments id)) - 3)
               (List.length (segments id))), w).
Proof.
  intros H Hlen. unfold getVnetLabelValues. rewrite H. simpl.
  rewrite bind_run. simpl. rewrite bind_run. simpl. rewrite bind_run.
  fold (segments id). by rewrite index_out_of_range by lia.
Qed.

Lemma getVnetLabelValues_labels nc id w :
  v1alpha2.VnetSubnetID (v1alpha2.Spec nc) = Some id →
  (3 ≤ List.length (segments id))%nat →
  getVnetLabelValues nc w
  = alloc (vnetLabels (segment id (List.length (segments id) - 3))
             (segment id (List.length (segments id) - 1))
             (segment id 2)
             (default EmptyString (environ w !! "AZURE_VNET_GUID"))) w.
Proof.
  intros H Hlen. unfold getVnetLabelValues. rewrite H. simpl.
  rewrite bind_run. simpl. rewrite bind_run. simpl. fold (segments id).
  rewrite bind_run, index_in_range by lia.
  rewrite bind_run, index_in_range by lia.
  rewrite bind_run, index_in_range by lia.
  rewrite bind_run. simpl. unfold segment.
  by replace (Z.to_nat (Z.of_nat (List.length (segments id)) - 3))
    with (List.length (segments id) - 3)%nat by lia;
  replace (Z.to_nat (Z.of_nat (List.length (segments id)) - 1))
    with (List.length (segments id) - 1)%nat by lia.
Qed.

Lemma vnetLabels_lookup networkName subnetName subscriptionID guid :
  let m := vnetLabels networkName subnetName subscriptionID guid in
  m !! vnetDataPlaneLabel = Some ciliumNetworkPlugin
  ∧ m !! vnetNetworkNameLabel = Some networkName
  ∧ m !! vnetSubnetNameLabel = Some subnetName
  ∧ m !! vnetSubscriptionIDLabel = Some subscriptionID
  ∧ m !! vnetGUIDLabel = Some guid
  ∧ m !! vnetPodNetworkTypeLabel = Some overlayNetworkType.
Proof. unfold vnetLabels. simpl. repeat split; by simplify_map_eq. Qed.

Lemma vnetLabels_dom networkName subnetName subscriptionID guid :
  dom (vnetLabels networkName subnetName subscriptionID guid)
  = {[vnetDataPlaneLabel; vnetNetworkNameLabel; vnetSubnetNameLabel;
      vnetSubscriptionIDLabel; vnetGUIDLabel; vnetPodNetworkTypeLabel]}.
Proof. unfold vnetLabels. simpl. rewrite !dom_insert_L, dom_empty_L. set_solver. Qed.

Lemma vnetLabels_size networkName subnetName subscriptionID guid :
  size (vnetLabels networkName subnetName subscriptionID guid) = 6%nat.
Proof.
  unfold vnetLabels. simpl.
  rewrite !map_size_insert_None; [by rewrite map_size_empty | by simplify_map_eq ..].
Qed.

(** ** The tag merger *)

Section MergeTags.
Variable range : gmap string string → list (string * string).
Hypothesis range_order : iteration_order range.

Lemma elem_of_range m k v : (k, v) ∈ range m ↔ m !! k = Some v.
Proof using range_order. by rewrite (range_order m), elem_of_map_to_list. Qed.

Lemma range_empty : range ∅ = [].
Proof using range_order.
  apply Permutation_nil_r. by rewrite (range_order ∅), map_to_list_empty.
Qed.

Lemma merged_tags_nil : merged_tags range [] = ∅.
Proof using range_order. unfold merged_tags. by rewrite assigned_nil, range_empty. Qed.

Lemma merged_tags_lookup_Some ms k2 pv :
  merged_tags range ms !! k2 = Some pv →
  ∃ k v, lo.assigned ms !! k = Some v ∧ sanitize k = k2 ∧ pv = to.StringPtr v.
Proof using range_order.
  intros (k & v & Hin & Hf)%mapped_lookup_Some. injection Hf as <- <-.
  exists k, v. by rewrite <-elem_of_range.
Qed.

Lemma merged_tags_lookup_is_Some ms k v :
  lo.assigned ms !! k = Some v → is_Some (merged_tags range ms !! sanitize k).
Proof using range_order.
  intros Hin%elem_of_range.
  apply (mapped_lookup_is_Some _ (λ key value, (sanitize key, to.StringPtr value)) _ _ Hin).
Qed.

(** A key whose sanitized form no other key shares keeps its value. *)
Lemma merged_tags_lookup_unique ms k v :
  lo.assigned ms !! k = Some v →
  (∀ k', is_Some (lo.assigned ms !! k') → sanitize k' = sanitize k → k' = k) →
  merged_tags range ms !! sanitize k = Some (to.StringPtr v).
Proof using range_order.
  intros Hk Huniq.
  apply (mapped_lookup_agree _ (λ key value, (sanitize key, to.StringPtr value)) k v).
  - by apply elem_of_range.
  - simpl. intros k' v' Hin%elem_of_range Heq.
    rewrite (Huniq k') in Hin by eauto. congruence.
Qed.

Lemma merged_tags_dom ms :
  dom (merged_tags range ms) = set_map sanitize (dom (lo.assigned ms)).
Proof using range_order.
  apply set_eq. intros k2. rewrite elem_of_dom, elem_of_map. split.
  - intros [pv (k & v & Hk & <- & _)%merged_tags_lookup_Some].
    exists k. split; [done | by apply elem_of_dom].
  - intros (k & -> & [v Hk]%elem_of_dom). by eapply merged_tags_lookup_is_Some.
Qed.

Lemma merged_tags_no_slash ms k2 :
  k2 ∈ dom (merged_tags range ms) → Strings.Contains k2 "/" = false.
Proof using range_order.
  rewrite merged_tags_dom, elem_of_map. intros (k & -> & _).
  by apply ReplaceAll_Contains.
Qed.

Lemma mergeTags_run tags w :
  mergeTags range tags w
  = (Returns (Some (fresh (dom (ptrmaps w)))),
     store_ptrs (fresh (dom (ptrmaps w))) (merged_tags range (load w <$> tags))
       (store (fresh (dom (maps w))) (lo.assigned (load w <$> tags)) w)).
Proof.
  unfold mergeTags. rewrite bind_run. unfold lo.Assign, alloc. simpl.
  unfold lo.MapEntries, alloc_ptrs. by rewrite load_store.
Qed.

Lemma mergeTags_returned tags w :
  returned_ptrs (mergeTags range tags) w = Some (merged_tags range (load w <$> tags)).
Proof. unfold returned_ptrs. by rewrite mergeTags_run, load_ptrs_store_ptrs. Qed.

Lemma Assign_run ms w :
  lo.Assign ms w
  = (Returns (Some (fresh (dom (maps w)))),
     store (fresh (dom (maps w))) (lo.assigned (load w <$> ms)) w).
Proof. done. Qed.

Lemma load_fmap_extends w w' rs :
  extends w w' → Forall (valid w) rs → load w' <$> rs = load w <$> rs.
Proof.
  intros Hext Hrs. induction Hrs as [|r rs Hr _ IH]; [done|].
  rewrite !fmap_cons. by rewrite IH, (extends_load w w').
Qed.

(** Grouping the sources with [lo.Assign] first does not change the merge. *)
Lemma mergeTags_grouped xs ys w :
  Forall (valid w) (xs ++ ys) →
  returned_ptrs (a ← lo.Assign xs; b ← lo.Assign ys; mergeTags range [a; b]) w
  = returned_ptrs (mergeTags range (xs ++ ys)) w.
Proof.
  intros [Hxs Hys]%Forall_app. rewrite mergeTags_returned.
  unfold returned_ptrs. rewrite bind_run, Assign_run.
  set (w1 := store _ _ w). rewrite bind_run, Assign_run.
  set (w2 := store _ _ w1). rewrite mergeTags_run, load_ptrs_store_ptrs.
  assert (extends w w1) as H1 by apply extends_store.
  assert (extends w1 w2) as H2 by apply extends_store.
  assert (load w2 (Some (fresh (dom (maps w)))) = lo.assigned (load w <$> xs)) as Ha.
  { rewrite (extends_load w1 w2); [apply load_store | done |].
    simpl. rewrite dom_insert_L. apply elem_of_union_l. by apply elem_of_singleton. }
  assert (load w2 (Some (fresh (dom (maps w1)))) = lo.assigned (load w <$> ys)) as Hb.
  { unfold w2. by rewrite load_store, (load_fmap_extends w w1). }
  unfold merged_tags. do 3 f_equal.
  rewrite !fmap_cons, fmap_nil, Ha, Hb, fmap_app, assigned_app.
  rewrite !assigned_cons, assigned_nil. by rewrite !(left_id_L ∅ (∪)).
Qed.
End MergeTags.

(** When no two keys are stored under one sanitized key, the merged map is
    the same for every iteration order. *)
Lemma merged_tags_collision_free range1 range2 ms :
  iteration_order range1 → iteration_order range2 →
  collision_free (lo.assigned ms) →
  merged_tags range1 ms = merged_tags range2 ms.
Proof.
  intros Horder1 Horder2 Hfree.
  assert (∀ range, iteration_order range →
            ∀ k v, lo.assigned ms !! k = Some v →
                   merged_tags range ms !! sanitize k = Some (to.StringPtr v)) as Hlookup.
  { intros range Horder k v Hk. apply merged_tags_lookup_unique; [done..|].
    intros k' Hk' Heq. apply Hfree; eauto. }
  apply map_eq. intros k2.
  destruct (merged_tags range1 ms !! k2) as [pv|] eqn:H1.
  - apply merged_tags_lookup_Some in H1 as (k & v & Hk & <- & ->); [|done].
    symmetry. by apply Hlookup.
  - destruct (merged_tags range2 ms !! k2) as [pv|] eqn:H2; [|done].
    apply merged_tags_lookup_Some in H2 as (k & v & Hk & <- & ->); [|done].
    by rewrite (Hlookup range1 Horder1 k v Hk) in H1.
Qed.

(** ** The compatibility test *)

(** Where [Atoi] returns no error, the number beside it is the parsed one. *)
Lemma AtoiValue_Atoi s n : strconv.Atoi s = Some n → strconv.AtoiValue s = n.
Proof.
  assert (∀ m, strconv.in_range m = Some n → strconv.clamped m = n) as Hrange.
  { intros m. unfold strconv.in_range, strconv.clamped. case_bool_decide; [|done].
    intros [= <-]. lia. }
  destruct s as [|c rest]; [done|]. unfold strconv.Atoi, strconv.AtoiValue.
  destruct (Ascii.eqb c "+"); [|destruct (Ascii.eqb c "-")].
  - destruct rest; [done|]. destruct (strconv.digits _ 0); [apply Hrange | done].
  - destruct rest; [done|]. destruct (strconv.digits _ 0); [apply Hrange | done].
  - destruct (strconv.digits _ 0); [apply Hrange | done].
Qed.

Example AtoiValue_cases :
  strconv.AtoiValue "42" = 42 ∧ strconv.AtoiValue "-7" = -7
  ∧ strconv.AtoiValue "4x" = 0 ∧ strconv.AtoiValue EmptyString = 0
  ∧ strconv.AtoiValue "99999999999999999999" = strconv.MaxInt64
  ∧ strconv.AtoiValue "-99999999999999999999" = - strconv.MaxInt64 - 1.
Proof. repeat split; vm_compute; reflexivity. Qed.

Lemma maxIntPtr_None a : scheduling.maxIntPtr a None = a.
Proof. by destruct a. Qed.
Lemma minIntPtr_None a : scheduling.minIntPtr a None = a.
Proof. by destruct a. Qed.

Lemma withinIntPtrs_empty value g l :
  l ≤ g → scheduling.withinIntPtrs value (Some g) (Some l) = false.
Proof.
  intros Hle. unfold scheduling.withinIntPtrs.
  destruct (strconv.Atoi value) as [n|]; [|done].
  apply andb_false_iff.
  destruct (decide (g < n)); [right | left]; apply bool_decide_eq_false; lia.
Qed.

Lemma size_filter_nonzero `{Countable A} (P : A → Prop) `{!∀ x, Decision (P x)} (X : gset A) :
  size (filter P X) ≠ 0%nat ↔ ∃ x, x ∈ X ∧ P x.
Proof.
  rewrite size_non_empty_iff. split.
  - intros [x Hx%elem_of_filter]%set_choose. naive_solver.
  - intros (x & ? & ?) Hempty. apply (not_elem_of_empty (C:=gset A) x).
    rewrite <-Hempty. by apply elem_of_filter.
Qed.

(** The intersection with a one-value requirement is inhabited exactly when
    the value is admitted. *)
Lemma Len_Intersection_In r key value :
  scheduling.Len
    (scheduling.Intersection r
       (scheduling.Build_Requirement key false {[value]} None None)) ≠ 0
  ↔ admits r value.
Proof.
  unfold scheduling.Intersection, admits.
  cbn [scheduling.complement scheduling.values scheduling.greaterThan scheduling.lessThan].
  rewrite maxIntPtr_None, minIntPtr_None, andb_false_r.
  set (within := scheduling.withinIntPtrs).
  assert (∀ vals : gset string,
            scheduling.Len (scheduling.Build_Requirement (scheduling.Key r) false vals None None) ≠ 0
            ↔ size vals ≠ 0%nat) as HLen.
  { intros vals. unfold scheduling.Len. simpl. lia. }
  assert (size (filter (λ v, within v (scheduling.greaterThan r) (scheduling.lessThan r) = true)
                  (if scheduling.complement r then {[value]} ∖ scheduling.values r
                   else scheduling.values r ∩ {[value]})) ≠ 0%nat
          ↔ (if scheduling.complement r then value ∉ scheduling.values r
             else value ∈ scheduling.values r)
            ∧ within value (scheduling.greaterThan r) (scheduling.lessThan r) = true) as Hsize.
  { rewrite size_filter_nonzero. destruct (scheduling.complement r); set_solver. }
  destruct (scheduling.greaterThan r) as [g|] eqn:Hg,
           (scheduling.lessThan r) as [l|] eqn:Hl;
    try case_bool_decide; try (by rewrite HLen).
  unfold within. rewrite withinIntPtrs_empty by done.
  split; [done | by intros []].
Qed.

Lemma arm64Requirements_eq : arm64Requirements = {[v1.LabelArchStable := arm64Requirement]}.
Proof. vm_compute. reflexivity. Qed.

Lemma filter_empty_iff `{Countable A} (P : A → Prop) `{!∀ x, Decision (P x)} (X : gset A) :
  filter P X = ∅ ↔ ∀ x, x ∈ X → ¬ P x.
Proof.
  split.
  - intros Hempty x Hx HP. apply (not_elem_of_empty (C:=gset A) x).
    rewrite <-Hempty. by apply elem_of_filter.
  - intros HX. apply set_eq. intros x. rewrite elem_of_filter.
    split; [intros [? ?]; by destruct (HX x) | by intros ?%not_elem_of_empty].
Qed.

Lemma Get_Some (reqs : scheduling.Requirements) key r :
  reqs !! key = Some r → scheduling.Get reqs key = r.
Proof. intros H. unfold scheduling.Get. by rewrite H. Qed.

Lemma Has_true (reqs : scheduling.Requirements) key :
  scheduling.Has reqs key = true ↔ is_Some (reqs !! key).
Proof. unfold scheduling.Has. by rewrite bool_decide_eq_true. Qed.

Lemma arm64Requirement_Operator :
  scheduling.excludes (scheduling.Operator arm64Requirement) = false.
Proof. vm_compute. reflexivity. Qed.

(** The compatibility test of the builder, spelled out: an instance type that
    defines the architecture must admit ["arm64"]; one that does not is
    compatible when the label may be left undefined. *)
Lemma Compatible_arm64 allowUndefined (reqs : scheduling.Requirements) :
  scheduling.Compatible allowUndefined reqs arm64Requirements = ∅
  ↔ match reqs !! v1.LabelArchStable with
    | Some r => admits r corev1beta1.ArchitectureArm64
    | None => v1.LabelArchStable ∈ allowUndefined
    end.
Proof.
  rewrite arm64Requirements_eq. unfold scheduling.Compatible, scheduling.Intersects.
  rewrite empty_union_L, !filter_empty_iff, dom_singleton_L.
  pose proof (Get_Some {[v1.LabelArchStable := arm64Requirement]} v1.LabelArchStable
                arm64Requirement (lookup_singleton_eq _ _)) as HGet.
  pose proof arm64Requirement_Operator as Hop.
  split.
  - intros [Hdefined Hintersect].
    destruct (reqs !! v1.LabelArchStable) as [r|] eqn:Hr.
    + apply (Len_Intersection_In r v1.LabelArchStable). intros HLen.
      apply (Hintersect v1.LabelArchStable).
      * apply elem_of_intersection.
        split; [apply elem_of_dom; eauto | apply elem_of_singleton; reflexivity].
      * rewrite HGet, Hop, (Get_Some reqs _ r Hr). split; [exact HLen|].
        intros [? _]. discriminate.
    + destruct (decide (v1.LabelArchStable ∈ allowUndefined)) as [Hin|Hnot]; [exact Hin|].
      destruct (Hdefined v1.LabelArchStable).
      * apply elem_of_difference. split; [apply elem_of_singleton; reflexivity | exact Hnot].
      * rewrite HGet, Hop, Has_true, Hr.
        intros [?%is_Some_None|?]; [contradiction | discriminate].
  - intros Hreq. split.
    + intros key [Hkey%elem_of_singleton Hnot]%elem_of_difference Herr. subst key.
      destruct (reqs !! v1.LabelArchStable) as [r|] eqn:Hr; [|contradiction].
      apply Herr. left. apply Has_true. rewrite Hr. eauto.
    + intros key [[r Hr]%elem_of_dom Hkey%elem_of_singleton]%elem_of_intersection [HLen _].
      subst key. rewrite Hr in Hreq.
      apply (Len_Intersection_In r v1.LabelArchStable) in Hreq.
      apply Hreq. revert HLen. by rewrite HGet, (Get_Some reqs _ r Hr).
Qed.

Lemma detectedArch_arm64 allowUndefined it :
  detectedArch allowUndefined it = corev1beta1.ArchitectureArm64
  ↔ match cloudprovider.Requirements it !! v1.LabelArchStable with
    | Some r => admits r corev1beta1.ArchitectureArm64
    | None => v1.LabelArchStable ∈ allowUndefined
    end.
Proof.
  rewrite <-Compatible_arm64. unfold detectedArch. by case_decide.
Qed.

Lemma In_requirement_lookup key vals :
  scheduling.NormalizedLabels !! key = None →
  scheduling.NewRequirements [In_requirement key vals] !! key
  = Some (scheduling.Build_Requirement key false (list_to_set vals) None None).
Proof.
  intros Hkey. unfold scheduling.NewRequirements, In_requirement, scheduling.NewRequirement.
  rewrite Hkey. cbn [default foldl]. unfold scheduling.Add.
  cbn [scheduling.Key]. rewrite lookup_empty. apply lookup_insert_eq.
Qed.

(** ** The static parameter builder and the template provider *)

Lemma maps_store w l m : maps (store l m w) = <[l := m]> (maps w).
Proof. done. Qed.

Lemma ptrmaps_store_ptrs w l m : ptrmaps (store_ptrs l m w) = <[l := m]> (ptrmaps w).
Proof. done. Qed.

Lemma valid_store w l m r : valid w r → valid (store l m w) r.
Proof.
  destruct r as [l'|]; [|done]. simpl. rewrite dom_insert_L. apply elem_of_union_r.
Qed.

Lemma load_store_fresh w m r :
  valid w r → load (store (fresh (dom (maps w))) m w) r = load w r.
Proof. intros Hr. apply extends_load; [apply extends_store | done]. Qed.

Section ProviderFacts.
Variable range : gmap string string → list (string * string).
Variable allowUndefined : gset string.
Variable skus : utils.Classifier.

Lemma getStaticParameters_nil p ctx it nc labels w :
  v1alpha2.VnetSubnetID (v1alpha2.Spec nc) = None →
  getStaticParameters allowUndefined skus p ctx it nc labels w = (Panics NilDereference, w).
Proof.
  intros H. unfold getStaticParameters.
  by rewrite bind_run, getVnetLabelValues_nil.
Qed.

Lemma getStaticParameters_short p ctx it nc labels id w :
  v1alpha2.VnetSubnetID (v1alpha2.Spec nc) = Some id →
  (List.length (segments id) < 3)%nat →
  getStaticParameters allowUndefined skus p ctx it nc labels w
  = (Panics (IndexOutOfRange (Z.of_nat (List.length (segments id)) - 3)
               (List.length (segments id))), w).
Proof.
  intros H Hlen. unfold getStaticParameters.
  by rewrite bind_run, (getVnetLabelValues_short nc id).
Qed.

Lemma getStaticParameters_returns p ctx it nc labels id w :
  v1alpha2.VnetSubnetID (v1alpha2.Spec nc) = Some id →
  (3 ≤ List.length (segments id))%nat →
  ∃ sp l w',
    getStaticParameters allowUndefined skus p ctx it nc labels w = (Returns sp, w')
    ∧ parameters.Labels sp = Some l
    ∧ (l ∉ dom (maps w))
    ∧ is_Some (maps w' !! l)
    ∧ (valid w labels → maps w' !! l = Some (vnetLabelsOf id w ∪ load w labels))
    ∧ parameters.Arch sp = detectedArch allowUndefined it
    ∧ parameters.Tags sp = v1alpha2.Tags (v1alpha2.Spec nc)
    ∧ parameters.ClusterName sp = options.ClusterName (FromContext ctx)
    ∧ calls w' = calls w ∧ extends w w'.
Proof.
  intros Hid Hlen. unfold getStaticParameters.
  rewrite bind_run, (getVnetLabelValues_labels nc id w Hid Hlen).
  fold (vnetLabelsOf id w). unfold alloc.
  set (lv := fresh (dom (maps w))). set (w1 := store lv _ w).
  rewrite bind_run, Assign_run.
  set (l := fresh (dom (maps w1))). set (w2 := store l _ w1).
  assert (extends w w1) as H1 by apply extends_store.
  assert (extends w1 w2) as H2 by apply extends_store.
  eexists _, l, w2. split; [reflexivity|].
  split; [done|]. split.
  { intros Hl. apply (is_fresh (dom (maps w1))). fold l.
    by apply (subseteq_dom _ _ (extends_maps _ _ H1)). }
  split; [unfold w2; rewrite maps_store, lookup_insert_eq; eauto|].
  split.
  { intros Hlabels. unfold w2 at 1. rewrite maps_store, lookup_insert_eq. f_equal.
    rewrite !fmap_cons, fmap_nil, !assigned_cons, assigned_nil.
    rewrite (left_id_L ∅ (∪)). rewrite (extends_load w w1 labels H1 Hlabels).
    f_equal. apply load_store. }
  repeat split; try done. by apply (extends_trans w w1 w2).
Qed.

Lemma createLaunchTemplate_nil w :
  createLaunchTemplate range None w = (Panics NilDereference, w).
Proof. done. Qed.

Lemma createLaunchTemplate_script_fails params s err w :
  parameters.UserData params = (s, Some err) →
  createLaunchTemplate range (Some params) w
  = (Returns (None, Some err), logged ScriptCall w).
Proof. intros H. unfold createLaunchTemplate. by rewrite bind_run, H. Qed.

Lemma createLaunchTemplate_returns params s w :
  parameters.UserData params = (s, None) →
  ∃ l w',
    createLaunchTemplate range (Some params) w
    = (Returns (Some {| UserData := s; ImageID := parameters.ImageID params;
                        Tags := Some l |}, None), w')
    ∧ (l ∉ dom (ptrmaps w))
    ∧ is_Some (ptrmaps w' !! l)
    ∧ calls w' = calls w ++ [ScriptCall]
    ∧ extends w w'
    ∧ (valid w (parameters.PTags params) →
       ptrmaps w' !! l
       = Some (merged_tags range
                 [load w (parameters.PTags params);
                  {[karpenterManagedTagKey := parameters.PClusterName params]}])).
Proof.
  intros Hs. unfold createLaunchTemplate. rewrite bind_run. simpl. rewrite Hs.
  rewrite bind_run. unfold alloc.
  set (w0 := logged ScriptCall w).
  set (lm := fresh (dom (maps w0))). set (w1 := store lm _ w0).
  rewrite bind_run, mergeTags_run.
  set (l := fresh (dom (ptrmaps w1))). set (w2 := store_ptrs l _ _).
  assert (extends w w0) as H0 by apply extends_logged.
  assert (extends w0 w1) as H1 by apply extends_store.
  exists l, w2. split; [reflexivity|]. split; [apply is_fresh|].
  split; [unfold w2; rewrite ptrmaps_store_ptrs, lookup_insert_eq; eauto|].
  split; [done|]. split.
  - apply (extends_trans w w1); [by apply (extends_trans w w0 w1)|].
    unfold w2. eapply extends_trans; [apply extends_store | apply extends_store_ptrs].
  - intros Htags. unfold w2. rewrite ptrmaps_store_ptrs, lookup_insert_eq. do 2 f_equal.
    rewrite !fmap_cons, fmap_nil. f_equal.
    + rewrite (extends_load w w1); [done | by apply (extends_trans w w0 w1) | done].
    + f_equal. apply load_store.
Qed.
End ProviderFacts.

Section RunFacts.
Variable range : gmap string string → list (string * string).
Variable allowUndefined : gset string.
Variable skus : utils.Classifier.

Lemma built_extends ctx nc claim it extra w id sp w1 w2 :
  built allowUndefined ctx nc claim it extra w id sp w1 → extends w1 w2 →
  built allowUndefined ctx nc claim it extra w id sp w2.
Proof.
  intros (l & ? & ? & Hl & ?) Hext. exists l. repeat split; try tauto.
  apply (lookup_weaken _ _ _ _ Hl (extends_maps _ _ Hext)).
Qed.

(** Every run of the code is one of the runs above. *)
Lemma GetTemplate_run p ctx nc claim it extra w :
  ∃ trace,
    calls (GetTemplate range allowUndefined skus p ctx nc claim it extra w).2
    = calls w ++ trace
    ∧ run range allowUndefined p ctx nc claim it extra w
        (GetTemplate range allowUndefined skus p ctx nc claim it extra w).1 trace
        (GetTemplate range allowUndefined skus p ctx nc claim it extra w).2.
Proof.
  unfold GetTemplate. rewrite bind_run, Assign_run.
  set (l0 := fresh (dom (maps w))). set (w0 := store l0 _ w).
  assert (extends w w0) as H0 by apply extends_store.
  destruct (v1alpha2.VnetSubnetID (v1alpha2.Spec nc)) as [id|] eqn:Hid; last first.
  { rewrite bind_run, getStaticParameters_nil by done. simpl.
    exists []. split; [by rewrite app_nil_r | by constructor]. }
  destruct (decide (List.length (segments id) < 3)%nat) as [Hlen|Hlen].
  { rewrite bind_run, (getStaticParameters_short _ _ _ _ _ _ _ id) by done. simpl.
    exists []. split; [by rewrite app_nil_r | by econstructor]. }
  apply Nat.nlt_ge in Hlen.
  destruct (getStaticParameters_returns allowUndefined skus p ctx it nc (Some l0) id w0
              Hid Hlen) as (sp & l & w2 & Hrun & Hl & Hfresh & _ & Hmap & Harch & Htags
                            & Hname & Hcalls & H2).
  specialize (Hmap ltac:(simpl; rewrite dom_insert_L; apply elem_of_union_l;
                         by apply elem_of_singleton)).
  rewrite bind_run, Hrun.
  assert (built allowUndefined ctx nc claim it extra w id sp w2) as Hbuilt.
  { exists l. split; [done|]. split.
    { intros ?. apply Hfresh. by apply (subseteq_dom _ _ (extends_maps _ _ H0)). }
    split; [|done]. rewrite Hmap. do 2 f_equal. unfold w0. rewrite load_store.
    rewrite !fmap_cons, fmap_nil, !assigned_cons, assigned_nil.
    by rewrite (left_id_L ∅ (∪)). }
  rewrite bind_run. simpl.
  set (w3 := logged KubeServerVersionCall w2).
  assert (extends w2 w3) as H3 by apply extends_logged.
  destruct (imageProvider p ctx) as [version [err|]] eqn:Hversion.
  { simpl. exists [KubeServerVersionCall]. split; [by rewrite Hcalls|].
    eapply run_version_fails; eauto using built_extends. }
  rewrite bind_run. simpl.
  set (sp' := parameters.with_KubernetesVersion sp version).
  set (w4 := logged (ResolveCall sp') w3).
  assert (extends w3 w4) as H4 by apply extends_logged.
  assert (extends w2 w4) as H24 by by apply (extends_trans w2 w3 w4).
  assert (calls w4 = calls w ++ [KubeServerVersionCall; ResolveCall sp']) as Hcalls4.
  { simpl. rewrite Hcalls. simpl. by rewrite <-(assoc_L (++)). }
  clearbody w4.
  destruct (imageFamily p ctx nc claim it sp') as [params [err|]] eqn:Hresolve.
  { simpl. eexists. split; [exact Hcalls4|].
    eapply run_resolve_fails; eauto using built_extends. }
  destruct params as [params|]; last first.
  { rewrite bind_run, createLaunchTemplate_nil. simpl. eexists. split; [exact Hcalls4|].
    eapply run_resolve_nil; eauto using built_extends. }
  destruct (parameters.UserData params) as [script [err|]] eqn:Hscript.
  { rewrite bind_run, (createLaunchTemplate_script_fails _ _ _ _ _ Hscript). simpl.
    eexists. split; [by rewrite Hcalls4, <-(assoc_L (++))|].
    eapply run_script_fails; eauto.
    eapply built_extends; [done|]. eapply extends_trans; [done|]. apply extends_logged. }
  destruct (createLaunchTemplate_returns range params script w4 Hscript)
    as (lt & w5 & Hrun5 & Hlt & Hsome & Hcalls5 & H5 & Hcontent).
  rewrite bind_run, Hrun5. simpl.
  eexists. split; [by rewrite Hcalls5, Hcalls4, <-(assoc_L (++))|].
  assert (extends w w4) as H04.
  { apply (extends_trans w w0); [done|]. by apply (extends_trans w0 w2). }
  eapply run_template; eauto.
  - eapply built_extends; [done|]. by apply (extends_trans w2 w4).
  - intros ?. apply Hlt. by apply (subseteq_dom _ _ (extends_ptrmaps _ _ H04)).
  - intros Hvalid.
    assert (valid w4 (parameters.PTags params)) as Hvalid4.
    { destruct Hvalid as [Hvalid| ->]; [by apply (extends_valid w w4)|].
      rewrite Hl. simpl. apply (subseteq_dom _ _ (extends_maps _ _ H24)).
      apply elem_of_dom. by rewrite Hmap. }
    rewrite (Hcontent Hvalid4). by rewrite (extends_load w4 w5).
Qed.
End RunFacts.

Lemma admits_In_requirement key vals value :
  admits (In_requirement key vals) value ↔ value ∈ vals.
Proof.
  unfold admits, In_requirement, scheduling.NewRequirement.
  cbn [scheduling.complement scheduling.values scheduling.greaterThan scheduling.lessThan].
  rewrite elem_of_list_to_set. unfold scheduling.withinIntPtrs. tauto.
Qed.

Ltac trace_cases :=
  repeat match goal with
    | H : _ ∈ [] |- _ => by apply elem_of_nil in H
    | H : _ ∈ _ :: _ |- _ =>
        apply elem_of_cons in H as [H|H];
        [try discriminate H; try (injection H as ->) |]
    end.

Ltac same_result :=
  repeat match goal with
    | H1 : ?f = _, H2 : ?f = _ |- _ =>
        rewrite H1 in H2; first [discriminate H2 | injection H2 as; subst]
    end.

Section BuilderFacts.
Variable allowUndefined : gset string.
Variable skus : utils.Classifier.

Lemma getStaticParameters_inv p ctx it nc labels w sp w' :
  getStaticParameters allowUndefined skus p ctx it nc labels w = (Returns sp, w') →
  ∃ id l,
    v1alpha2.VnetSubnetID (v1alpha2.Spec nc) = Some id
    ∧ (3 ≤ List.length (segments id))%nat
    ∧ parameters.Labels sp = Some l
    ∧ (l ∉ dom (maps w))
    ∧ (valid w labels → maps w' !! l = Some (vnetLabelsOf id w ∪ load w labels))
    ∧ parameters.Arch sp = detectedArch allowUndefined it
    ∧ parameters.Tags sp = v1alpha2.Tags (v1alpha2.Spec nc)
    ∧ extends w w'.
Proof.
  intros Hrun.
  destruct (v1alpha2.VnetSubnetID (v1alpha2.Spec nc)) as [id|] eqn:Hid; last first.
  { rewrite getStaticParameters_nil in Hrun by exact Hid. discriminate Hrun. }
  destruct (decide (List.length (segments id) < 3)%nat) as [Hlen|Hlen].
  { rewrite (getStaticParameters_short _ _ _ _ _ _ _ id) in Hrun by assumption.
    discriminate Hrun. }
  apply Nat.nlt_ge in Hlen.
  destruct (getStaticParameters_returns allowUndefined skus p ctx it nc labels id w
              Hid Hlen)
    as (sp1 & l & w1 & Hrun1 & Hl & Hfresh & _ & Hmap & Harch & Htags & _ & _ & Hext).
  rewrite Hrun1 in Hrun. injection Hrun as <- <-. exists id, l. tauto.
Qed.
End BuilderFacts.

Lemma reversed_order : iteration_order reversed.
Proof. intros m. unfold reversed. by rewrite reverse_Permutation. Qed.

(** ** Keys stored under the key of the cluster marker *)

Lemma ReplaceAll_inv_clean s t old new :
  Strings.Contains t new = false → Strings.ReplaceAll s old new = t → s = t.
Proof.
  revert t. induction s as [|c s IH]; intros t Hclean Heq; [done|].
  simpl in Heq. destruct t as [|c' t]; [done|]. injection Heq as Hc Hs.
  simpl in Hclean. apply orb_false_elim in Hclean as [Hc' Ht].
  f_equal; [|by apply IH].
  destruct (Ascii.eqb_spec c old) as [->|_]; [|exact Hc].
  subst c'. by rewrite Ascii.eqb_refl in Hc'.
Qed.

Lemma append_String a s1 s2 : (String a s1 +:+ s2 = String a (s1 +:+ s2))%string.
Proof. reflexivity. Qed.

Lemma ReplaceAll_inv_one s pre post old new :
  Strings.Contains pre new = false → Strings.Contains post new = false →
  Strings.ReplaceAll s old new = (pre +:+ String new post)%string →
  s = (pre +:+ String old post)%string ∨ s = (pre +:+ String new post)%string.
Proof.
  revert s. induction pre as [|a pre IH]; intros s Hpre Hpost Heq.
  - simpl in *. destruct s as [|c s]; [discriminate Heq|]. simpl in *.
    injection Heq as Hc Hs.
    apply (ReplaceAll_inv_clean _ _ _ _ Hpost) in Hs as ->.
    destruct (Ascii.eqb_spec c old) as [->|_]; [by left | subst c; by right].
  - simpl in *. destruct s as [|c s]; [discriminate Heq|]. simpl in *.
    injection Heq as Hc Hs.
    apply orb_false_elim in Hpre as [Ha Hpre].
    destruct (IH s Hpre Hpost Hs) as [->| ->].
    + left. rewrite append_String. f_equal. destruct (Ascii.eqb_spec c old) as [->|_]; [|exact Hc].
      subst a. by rewrite Ascii.eqb_refl in Ha.
    + right. rewrite append_String. f_equal. destruct (Ascii.eqb_spec c old) as [->|_]; [|exact Hc].
      subst a. by rewrite Ascii.eqb_refl in Ha.
Qed.

(** Only the marker key and its sanitized form are stored under the
    sanitized marker key. *)
Lemma sanitize_managed_inv k :
  sanitize k = sanitize karpenterManagedTagKey →
  k = karpenterManagedTagKey ∨ k = sanitize karpenterManagedTagKey.
Proof.
  intros H.
  apply (ReplaceAll_inv_one k "karpenter.azure.com" "cluster" "/" "_");
    [reflexivity | reflexivity | exact H].
Qed.

Section Marker.
Variable range : gmap string string → list (string * string).
Hypothesis range_order : iteration_order range.

(** The tags merged with the cluster marker. *)
Lemma marker_tags_facts (tags : gmap string string) name :
  let t := merged_tags range [tags; {[karpenterManagedTagKey := name]}] in
  t !! karpenterManagedTagKey = None
  ∧ (∀ k, k ∈ dom t → Strings.Contains k "/" = false)
  ∧ dom t = set_map sanitize ({[karpenterManagedTagKey]} ∪ dom tags)
  ∧ is_Some (t !! sanitize karpenterManagedTagKey)
  ∧ (tags !! sanitize karpenterManagedTagKey = None →
     t !! sanitize karpenterManagedTagKey = Some (to.StringPtr name))
  ∧ (∀ k v, tags !! k = Some v → sanitize k ≠ sanitize karpenterManagedTagKey →
            (∀ k', is_Some (tags !! k') → sanitize k' = sanitize k → k' = k) →
            t !! sanitize k = Some (to.StringPtr v)).
Proof using range_order.
  intros t.
  assert (lo.assigned [tags; {[karpenterManagedTagKey := name]}]
          = {[karpenterManagedTagKey := name]} ∪ tags) as Hunion.
  { rewrite !assigned_cons, assigned_nil. by rewrite (left_id_L ∅ (∪)). }
  assert (lo.assigned [tags; {[karpenterManagedTagKey := name]}]
            !! karpenterManagedTagKey = Some name) as Hmarker.
  { rewrite Hunion. apply lookup_union_Some_raw. left. apply lookup_singleton_eq. }
  assert (∀ k, k ∈ dom t → Strings.Contains k "/" = false) as Hclean.
  { intros k. by apply merged_tags_no_slash. }
  split; [|split; [exact Hclean|split; [|split; [|split]]]].
  - apply not_elem_of_dom. intros Hin%Hclean. discriminate Hin.
  - unfold t. rewrite merged_tags_dom by done. rewrite Hunion, dom_union_L.
    by rewrite dom_singleton_L.
  - by apply (merged_tags_lookup_is_Some range range_order _ _ name).
  - intros Hnone. apply merged_tags_lookup_unique; [done | exact Hmarker|].
    intros k' [v' Hk'] [->| ->]%sanitize_managed_inv; [reflexivity|].
    rewrite Hunion in Hk'. apply lookup_union_Some_raw in Hk' as [Hk'|[_ Hk']].
    + apply lookup_singleton_Some in Hk' as [Hk' _]. discriminate Hk'.
    + rewrite Hnone in Hk'. discriminate Hk'.
  - intros k v Hk Hne Huniq. apply merged_tags_lookup_unique; [done | |].
    + rewrite Hunion. apply lookup_union_Some_raw. right. split; [|exact Hk].
      apply lookup_singleton_ne. intros <-. by apply Hne.
    + intros k' [v' Hk'] Heq. rewrite Hunion in Hk'.
      apply lookup_union_Some_raw in Hk' as [Hk'|[_ Hk']].
      * apply lookup_singleton_Some in Hk' as [<- _]. by destruct Hne.
      * apply Huniq; eauto.
Qed.
End Marker.

(** * Main results *)

(** ** The virtual-network label resolver *)

(** Labels for an identifier held by the node class: six of them, the
    subscription from segment 2, the network from the third segment from the
    end, the subnet from the last one. *)
Lemma getVnetLabelValues_field nc id w :
  v1alpha2.VnetSubnetID (v1alpha2.Spec nc) = Some id →
  (3 ≤ List.length (segments id))%nat →
  ∃ m, returned (getVnetLabelValues nc) w = Some m
       ∧ size m = 6%nat
       ∧ m !! vnetSubscriptionIDLabel = Some (segment id 2)
       ∧ m !! vnetNetworkNameLabel = Some (segment id (List.length (segments id) - 3))
       ∧ m !! vnetSubnetNameLabel = Some (segment id (List.length (segments id) - 1))
       ∧ m !! vnetDataPlaneLabel = Some "cilium"
       ∧ m !! vnetPodNetworkTypeLabel = Some "overlay"
       ∧ m !! vnetGUIDLabel = Some (default EmptyString (environ w !! "AZURE_VNET_GUID")).
Proof.
  intros Hid Hlen. eexists. split.
  - unfold returned. rewrite (getVnetLabelValues_labels nc id w Hid Hlen).
    unfold alloc. simpl. by rewrite lookup_insert_eq.
  - split; [apply vnetLabels_size|].
    pose proof (vnetLabels_lookup (segment id (List.length (segments id) - 3))
                  (segment id (List.length (segments id) - 1)) (segment id 2)
                  (default EmptyString (environ w !! "AZURE_VNET_GUID"))) as H.
    cbv zeta in H. destruct H as (? & ? & ? & ? & ? & ?).
    repeat split; assumption.
Qed.

Example getVnetLabelValues_subnet1 :
  returned (getVnetLabelValues (nodeClass_of (Some subnet1) None)) empty_world
  = Some {[ vnetNetworkNameLabel := "vnet1"; vnetSubnetNameLabel := "subnet1";
            vnetSubscriptionIDLabel := "sub1"; vnetDataPlaneLabel := "cilium";
            vnetPodNetworkTypeLabel := "overlay"; vnetGUIDLabel := EmptyString ]}.
Proof. apply (bool_decide_unpack _). vm_compute. exact I. Qed.

(** C1, as amended.  When the node class holds a subnet identifier with
    fewer than three segments, the resolver panics on the first index
    expression, [vnetSubnetParts[len(vnetSubnetParts)-3]]: an index out of
    range.  It returns no labels, and it has no error result. *)
Theorem getVnetLabelValues_malformed nc id w :
  v1alpha2.VnetSubnetID (v1alpha2.Spec nc) = Some id →
  (List.length (segments id) < 3)%nat →
  getVnetLabelValues nc w
  = (Panics (IndexOutOfRange (Z.of_nat (List.length (segments id)) - 3)
               (List.length (segments id))), w)
  ∧ returned (getVnetLabelValues nc) w = None.
Proof.
  intros Hid Hlen. pose proof (getVnetLabelValues_short nc id w Hid Hlen) as H.
  split; [done|]. unfold returned. by rewrite H.
Qed.

Lemma getVnetLabelValues_malformed_witness :
  v1alpha2.VnetSubnetID (v1alpha2.Spec (nodeClass_of (Some EmptyString) None)) = Some EmptyString
  ∧ (List.length (segments EmptyString) < 3)%nat
  ∧ getVnetLabelValues (nodeClass_of (Some EmptyString) None) empty_world
    = (Panics (IndexOutOfRange (-2) 1), empty_world)
  ∧ returned (getVnetLabelValues (nodeClass_of (Some EmptyString) None)) empty_world = None.
Proof.
  split; [reflexivity|]. split; [vm_compute; lia|].
  apply (getVnetLabelValues_malformed (nodeClass_of (Some EmptyString) None) EmptyString empty_world);
    [reflexivity | vm_compute; lia].
Defined.

(** C1, as stated, fails: an identifier of two segments makes the resolver
    index out of bounds; no error is returned. *)
Lemma getVnetLabelValues_two_segments :
  (List.length (segments "vnet1/subnet1") < 3)%nat
  ∧ getVnetLabelValues (nodeClass_of (Some "vnet1/subnet1") None) empty_world
    = (Panics (IndexOutOfRange (-1) 2), empty_world).
Proof. split; [vm_compute; lia | reflexivity]. Qed.

(** C2 at the failing input.  The node class leaves the subnet identifier
    unset and the environment supplies a well-formed one: the dereference
    among the operands of [lo.Ternary] panics before the fallback is
    looked at. *)
Theorem getVnetLabelValues_fallback :
  v1alpha2.VnetSubnetID (v1alpha2.Spec (nodeClass_of None None)) = None
  ∧ environ fallback_world !! "AZURE_SUBNET_ID" = Some subnet1
  ∧ (3 ≤ List.length (segments subnet1))%nat
  ∧ getVnetLabelValues (nodeClass_of None None) fallback_world
    = (Panics NilDereference, fallback_world).
Proof. repeat split; vm_compute; lia || reflexivity. Qed.

(** ** The tag merger *)

Section TagMerger.
Variable range : gmap string string → list (string * string).
Hypothesis range_order : iteration_order range.

(** C5, as amended.  Whatever the iteration order: [mergeTags] returns
    (its only result is the map); no sources give the empty map; a key
    whose sanitized form no other key of the sources shares is stored,
    sanitized, with the value of the latest source that holds it; and when
    no two keys of the sources are stored under one sanitized key, grouping
    the sources with [lo.Assign], on either side, gives the same map as
    merging them all at once, whatever order each of the three calls
    iterates in. *)
Theorem mergeTags_later_source_wins tags w :
  ∃ t, returned_ptrs (mergeTags range tags) w = Some t
       ∧ (tags = [] → t = ∅)
       ∧ (∀ (before : list mapref) r after k v,
            tags = (before ++ r :: after)%list →
            load w r !! k = Some v →
            (∀ r', r' ∈ after → load w r' !! k = None) →
            (∀ r' k', r' ∈ tags → is_Some (load w r' !! k') →
                      sanitize k' = sanitize k → k' = k) →
            t !! sanitize k = Some (to.StringPtr v))
       ∧ (∀ (range1 range2 : gmap string string → list (string * string))
            (xs ys zs : list mapref),
            iteration_order range1 → iteration_order range2 →
            tags = (xs ++ ys ++ zs)%list → Forall (valid w) tags →
            collision_free (lo.assigned (load w <$> tags)) →
            returned_ptrs (ab ← lo.Assign (xs ++ ys)%list; c ← lo.Assign zs;
                           mergeTags range1 [ab; c]) w = Some t
            ∧ returned_ptrs (a ← lo.Assign xs; bc ← lo.Assign (ys ++ zs)%list;
                             mergeTags range2 [a; bc]) w = Some t).
Proof using range_order.
  exists (merged_tags range (load w <$> tags)).
  split; [apply mergeTags_returned|]. split; [|split].
  - intros ->. by apply merged_tags_nil.
  - intros before r after k v -> Hk Hlater Huniq.
    apply merged_tags_lookup_unique; [done | |].
    + rewrite fmap_app, fmap_cons. apply assigned_lookup_later; [done|].
      intros m' (r' & -> & Hr')%list_elem_of_fmap. by apply Hlater.
    + intros k' [v' (m' & (r' & -> & Hr')%list_elem_of_fmap & Hv')%assigned_lookup_Some].
      apply (Huniq r'); eauto.
  - intros range1 range2 xs ys zs Horder1 Horder2 -> Hvalid Hfree. split.
    + rewrite (merged_tags_collision_free range range1) by done.
      rewrite (assoc_L app) in Hvalid |- *.
      by rewrite (mergeTags_grouped range1 (xs ++ ys)%list zs w), mergeTags_returned.
    + rewrite (merged_tags_collision_free range range2) by done.
      by rewrite (mergeTags_grouped range2 xs (ys ++ zs)%list w), mergeTags_returned.
Qed.

(** C6.  Whatever the iteration order, the keys [mergeTags] stores are the
    keys of the sources with every ["/"] replaced by ["_"]: none of them
    contains ["/"]; and the sources [{"a/b": "1"}] and
    [{"c": "2", "a/b": "3"}] give exactly [{"a_b": "3", "c": "2"}]. *)
Theorem mergeTags_keys_sanitized tags w :
  ∃ t, returned_ptrs (mergeTags range tags) w = Some t
       ∧ (∀ k, k ∈ dom t → Strings.Contains k "/" = false)
       ∧ dom t = set_map sanitize (⋃ (dom <$> (load w <$> tags)) : gset string)
       ∧ (load w <$> tags = [{["a/b" := "1"]}; {["c" := "2"; "a/b" := "3"]}] →
          t = {["a_b" := Some "3"; "c" := Some "2"]}).
Proof using range_order.
  exists (merged_tags range (load w <$> tags)).
  split; [apply mergeTags_returned|]. split; [|split].
  - intros k. by apply merged_tags_no_slash.
  - by rewrite merged_tags_dom, assigned_dom.
  - intros ->.
    set (A := {["a/b" := "1"]} : gmap string string).
    set (B := {["c" := "2"; "a/b" := "3"]} : gmap string string).
    assert (lo.assigned [A; B] = B) as HAB by (vm_compute; reflexivity).
    assert (lo.assigned [A; B] !! "a/b" = Some "3") as Hab by done.
    assert (lo.assigned [A; B] !! "c" = Some "2") as Hc by done.
    assert (∀ k', is_Some (lo.assigned [A; B] !! k') → k' = "a/b" ∨ k' = "c") as Hkeys.
    { intros k' [v Hv]. rewrite HAB in Hv. unfold B in Hv.
      apply lookup_insert_Some in Hv as [[<- _]|[_ Hv]]; [by right|].
      apply lookup_singleton_Some in Hv as [<- _]. by left. }
    apply map_eq. intros k2.
    destruct (decide (k2 = "a_b")) as [->|Hne1].
    { change "a_b" with (sanitize "a/b") at 1.
      rewrite (merged_tags_lookup_unique range range_order _ _ _ Hab); [done|].
      by intros k' [->| ->]%Hkeys. }
    destruct (decide (k2 = "c")) as [->|Hne2].
    { change "c" with (sanitize "c") at 1.
      rewrite (merged_tags_lookup_unique range range_order _ _ _ Hc); [done|].
      by intros k' [->| ->]%Hkeys. }
    rewrite lookup_insert_ne, lookup_singleton_ne by done.
    apply not_elem_of_dom. rewrite merged_tags_dom by done.
    intros (k & -> & [->| ->]%elem_of_dom%Hkeys)%elem_of_map; done.
Qed.

End TagMerger.

Lemma map_to_list_order : iteration_order map_to_list.
Proof. intros m. reflexivity. Qed.

Lemma load_two_maps_1 m1 m2 : load (two_maps m1 m2) (Some 1%positive) = m1.
Proof. reflexivity. Qed.
Lemma load_two_maps_2 m1 m2 : load (two_maps m1 m2) (Some 2%positive) = m2.
Proof. reflexivity. Qed.

Lemma scenario_collision_free :
  collision_free
    (lo.assigned (load scenario_tags <$> [Some 1%positive; Some 2%positive])).
Proof.
  assert (lo.assigned (load scenario_tags <$> [Some 1%positive; Some 2%positive])
          = {["c" := "2"; "a/b" := "3"]}) as -> by (vm_compute; reflexivity).
  assert (∀ k, is_Some (({["c" := "2"; "a/b" := "3"]} : gmap string string) !! k) →
               k = "c" ∨ k = "a/b") as Hkeys.
  { intros k [v Hv]. apply lookup_insert_Some in Hv as [[<- _]|[_ Hv]]; [by left|].
    apply lookup_singleton_Some in Hv as [<- _]. by right. }
  intros k k' [->| ->]%Hkeys [->| ->]%Hkeys Heq; try reflexivity; discriminate Heq.
Defined.

Lemma mergeTags_later_source_wins_witness :
  iteration_order map_to_list
  ∧ collision_free
      (lo.assigned (load scenario_tags <$> [Some 1%positive; Some 2%positive]))
  ∧ ∃ t, returned_ptrs (mergeTags map_to_list [Some 1%positive; Some 2%positive])
           scenario_tags = Some t
         ∧ t !! "a_b" = Some (Some "3")
         ∧ returned_ptrs (ab ← lo.Assign [Some 1%positive; Some 2%positive];
                          c ← lo.Assign [];
                          mergeTags reversed [ab; c]) scenario_tags = Some t
         ∧ returned_ptrs (a ← lo.Assign [Some 1%positive];
                          bc ← lo.Assign [Some 2%positive];
                          mergeTags reversed [a; bc]) scenario_tags = Some t.
Proof.
  split; [exact map_to_list_order|]. split; [exact scenario_collision_free|].
  destruct (mergeTags_later_source_wins map_to_list map_to_list_order
              [Some 1%positive; Some 2%positive] scenario_tags)
    as (t & Ht & _ & Hwins & Hgrouped).
  exists t. split; [exact Ht|]. split.
  - apply (Hwins [Some 1%positive] (Some 2%positive) [] "a/b" "3").
    + reflexivity.
    + reflexivity.
    + intros r' Hr'. inversion Hr'.
    + intros r' k' Hr' [v Hv] Hk'.
      apply elem_of_cons in Hr' as [->|Hr'].
      * unfold scenario_tags in Hv. rewrite load_two_maps_1 in Hv.
        apply lookup_singleton_Some in Hv as [<- _]. reflexivity.
      * apply list_elem_of_singleton in Hr' as ->.
        unfold scenario_tags in Hv. rewrite load_two_maps_2 in Hv.
        apply lookup_insert_Some in Hv as [[<- _]|[_ Hv]]; [discriminate Hk'|].
        apply lookup_singleton_Some in Hv as [<- _]. reflexivity.
  - apply (Hgrouped reversed reversed [Some 1%positive] [Some 2%positive] []).
    + exact reversed_order.
    + exact reversed_order.
    + reflexivity.
    + repeat constructor; apply (bool_decide_unpack _); vm_compute; exact I.
    + exact scenario_collision_free.
Defined.

Lemma mergeTags_keys_sanitized_witness :
  iteration_order map_to_list
  ∧ ∃ t, returned_ptrs (mergeTags map_to_list [Some 1%positive; Some 2%positive])
           scenario_tags = Some t
         ∧ t = {["a_b" := Some "3"; "c" := Some "2"]}.
Proof.
  split; [exact map_to_list_order|].
  destruct (mergeTags_keys_sanitized map_to_list map_to_list_order
              [Some 1%positive; Some 2%positive] scenario_tags)
    as (t & Ht & _ & _ & Hscenario).
  exists t. split; [exact Ht|]. apply Hscenario. reflexivity.
Defined.

(** C5, as stated, fails.  Both sources hold ["a_b"] and ["a/b"]; the
    latest source gives them the values ["2"] and ["3"], but both are stored
    under ["a_b"], so no iteration order keeps both: with the order
    [map_to_list] the merged map is [{"a_b": "3"}], and ["2"], the latest
    value of ["a_b"], is lost. *)
Lemma mergeTags_colliding_keys :
  load colliding_tags (Some 1%positive) !! "a_b" = Some "1"
  ∧ load colliding_tags (Some 2%positive) !! "a_b" = Some "2"
  ∧ load colliding_tags (Some 1%positive) !! "a/b" = Some "1"
  ∧ load colliding_tags (Some 2%positive) !! "a/b" = Some "3"
  ∧ returned_ptrs (mergeTags map_to_list [Some 1%positive; Some 2%positive])
      colliding_tags = Some {["a_b" := Some "3"]}
  ∧ ¬ (∃ range t,
         returned_ptrs (mergeTags range [Some 1%positive; Some 2%positive])
           colliding_tags = Some t
         ∧ t !! sanitize "a_b" = Some (to.StringPtr "2")
         ∧ t !! sanitize "a/b" = Some (to.StringPtr "3")).
Proof.
  do 4 (split; [reflexivity|]). split.
  - apply (bool_decide_unpack _). vm_compute. exact I.
  - intros (range & t & _ & H1 & H2).
    change (sanitize "a/b") with (sanitize "a_b") in H2. rewrite H1 in H2. discriminate H2.
Qed.

(** With colliding keys the grouping matters: each call iterates in an order
    of its own, and on the sources above merging at once in the order
    [map_to_list] keeps ["3"] while merging the grouped sources in the
    order [reversed] keeps ["2"]. *)
Example mergeTags_grouping_collision :
  ¬ collision_free
      (lo.assigned (load colliding_tags <$> [Some 1%positive; Some 2%positive]))
  ∧ returned_ptrs (mergeTags map_to_list [Some 1%positive; Some 2%positive])
      colliding_tags = Some {["a_b" := Some "3"]}
  ∧ returned_ptrs (a ← lo.Assign [Some 1%positive]; bc ← lo.Assign [Some 2%positive];
                   mergeTags reversed [a; bc]) colliding_tags
    = Some {["a_b" := Some "2"]}.
Proof.
  split; [|split].
  - intros Hfree. specialize (Hfree "a_b" "a/b").
    assert ("a_b" = "a/b") as Heq; [|discriminate Heq].
    apply Hfree; [| |reflexivity];
      (apply (bool_decide_unpack _); vm_compute; exact I).
  - apply (bool_decide_unpack _). vm_compute. exact I.
  - apply (bool_decide_unpack _). vm_compute. exact I.
Qed.

(** ** The static parameter builder and the template provider *)

Section TemplateProvider.
Variable range : gmap string string → list (string * string).
Variable allowUndefined : gset string.
Variable skus : utils.Classifier.

(** C3.  A failing step ends the run: when the cluster version lookup, the
    image family resolution or the rendering of the boot script returns an
    error, [GetTemplate] returns nil with that error and calls no later
    collaborator (no boot script is rendered after a failed resolution).  A
    template is only returned, without error, after all three steps
    succeeded, and then it holds the rendered script, the resolved image and
    a stored tag map. *)
Theorem GetTemplate_short_circuit p ctx nc claim it extra w :
  ∃ trace,
    calls (GetTemplate range allowUndefined skus p ctx nc claim it extra w).2
    = calls w ++ trace
    ∧ (∀ version err,
         KubeServerVersionCall ∈ trace →
         imageProvider p ctx = (version, Some err) →
         (GetTemplate range allowUndefined skus p ctx nc claim it extra w).1
         = Returns (None, Some err)
         ∧ trace = [KubeServerVersionCall])
    ∧ (∀ sp params err,
         ResolveCall sp ∈ trace →
         imageFamily p ctx nc claim it sp = (params, Some err) →
         (GetTemplate range allowUndefined skus p ctx nc claim it extra w).1
         = Returns (None, Some err)
         ∧ trace = [KubeServerVersionCall; ResolveCall sp]
         ∧ ScriptCall ∉ trace)
    ∧ (∀ sp params script err,
         ResolveCall sp ∈ trace →
         imageFamily p ctx nc claim it sp = (Some params, None) →
         parameters.UserData params = (script, Some err) →
         (GetTemplate range allowUndefined skus p ctx nc claim it extra w).1
         = Returns (None, Some err)
         ∧ trace = [KubeServerVersionCall; ResolveCall sp; ScriptCall])
    ∧ (∀ tmpl err,
         (GetTemplate range allowUndefined skus p ctx nc claim it extra w).1
         = Returns (tmpl, err) →
         (tmpl = None ∧ is_Some err)
         ∨ (err = None
            ∧ ∃ sp params script l,
                trace = [KubeServerVersionCall; ResolveCall sp; ScriptCall]
                ∧ imageFamily p ctx nc claim it sp = (Some params, None)
                ∧ parameters.UserData params = (script, None)
                ∧ tmpl = Some {| UserData := script;
                                 ImageID := parameters.ImageID params;
                                 Tags := Some l |}
                ∧ is_Some
                    (ptrmaps (GetTemplate range allowUndefined skus p ctx nc claim it
                                extra w).2 !! l))).
Proof.
  destruct (GetTemplate_run range allowUndefined skus p ctx nc claim it extra w)
    as (trace & Hcalls & Hrun).
  exists trace. split; [exact Hcalls|].
  destruct (GetTemplate range allowUndefined skus p ctx nc claim it extra w) as [r w'].
  simpl in *. clear Hcalls.
  inversion Hrun as
    [ w1 Hid | id w1 Hid Hlen | id sp0 v0 e0 w1 Hid Hlen Hbuilt Hv
    | id sp0 v0 pa0 e0 w1 Hid Hlen Hbuilt Hv Hres
    | id sp0 v0 w1 Hid Hlen Hbuilt Hv Hres
    | id sp0 v0 pa0 s0 e0 w1 Hid Hlen Hbuilt Hv Hres Hscript
    | id sp0 v0 pa0 s0 l0 w1 Hid Hlen Hbuilt Hv Hres Hscript Hfresh Hsome Hcontent ];
    subst.
  all: (split; [|split; [|split]]).
  all: try (intros * Hin; trace_cases; intros; same_result;
            repeat split; try reflexivity; intros ?; trace_cases; fail).
  all: intros tmpl err Hresult; try discriminate Hresult; injection Hresult as <- <-.
  all: try (left; split; [reflexivity | eauto]; fail).
  right. split; [reflexivity|]. eauto 10.
Qed.

(** C4.  The architecture the builder puts in the static parameters is
    ["arm64"] when the requirements of the instance type are compatible with
    the constraint "architecture in {arm64}", and ["amd64"] otherwise; the
    builder returns whenever the node class holds a well-formed subnet
    identifier.  The test is one of compatibility: an instance type listing
    its architectures is compatible exactly when ["arm64"] is among them, so
    one that lists both ["amd64"] and ["arm64"] gets ["arm64"]. *)
Theorem getStaticParameters_arch p ctx it nc labels w :
  (∀ sp w',
     getStaticParameters allowUndefined skus p ctx it nc labels w = (Returns sp, w') →
     (parameters.Arch sp = "arm64"
      ∧ scheduling.Compatible allowUndefined (cloudprovider.Requirements it)
          arm64Requirements = ∅)
     ∨ (parameters.Arch sp = "amd64"
        ∧ scheduling.Compatible allowUndefined (cloudprovider.Requirements it)
            arm64Requirements ≠ ∅))
  ∧ (∀ id,
       v1alpha2.VnetSubnetID (v1alpha2.Spec nc) = Some id →
       (3 ≤ List.length (segments id))%nat →
       ∃ sp w',
         getStaticParameters allowUndefined skus p ctx it nc labels w = (Returns sp, w'))
  ∧ (scheduling.Compatible allowUndefined (cloudprovider.Requirements it)
       arm64Requirements = ∅
     ↔ match cloudprovider.Requirements it !! v1.LabelArchStable with
       | Some r => admits r "arm64"
       | None => v1.LabelArchStable ∈ allowUndefined
       end)
  ∧ (∀ architectures,
       cloudprovider.Requirements it !! v1.LabelArchStable
       = Some (In_requirement v1.LabelArchStable architectures) →
       (scheduling.Compatible allowUndefined (cloudprovider.Requirements it)
          arm64Requirements = ∅
        ↔ "arm64" ∈ architectures)).
Proof.
  split; [|split; [|split]].
  - intros sp w' (id & l & _ & _ & _ & _ & _ & Harch & _)%getStaticParameters_inv.
    rewrite Harch. unfold detectedArch. case_decide; [left | right]; by split.
  - intros id Hid Hlen.
    destruct (getStaticParameters_returns allowUndefined skus p ctx it nc labels id w
                Hid Hlen) as (sp & l & w' & Hrun & _).
    by exists sp, w'.
  - apply Compatible_arm64.
  - intros architectures Hreq. rewrite Compatible_arm64, Hreq.
    apply admits_In_requirement.
Qed.

(** C7.  The labels of the static parameters handed to the resolver are the
    node claim's labels, overridden by the additional labels, overridden by
    the virtual-network labels; every key of the three sources is a key of
    the result. *)
Theorem GetTemplate_label_precedence p ctx nc claim it extra w trace sp :
  calls (GetTemplate range allowUndefined skus p ctx nc claim it extra w).2
  = calls w ++ trace →
  ResolveCall sp ∈ trace →
  ∃ vnet labels,
    returned (getVnetLabelValues nc) w = Some vnet
    ∧ load (GetTemplate range allowUndefined skus p ctx nc claim it extra w).2
        (parameters.Labels sp) = labels
    ∧ labels = vnet ∪ (load w extra ∪ load w (corev1beta1.Labels claim))
    ∧ (∀ k v, vnet !! k = Some v → labels !! k = Some v)
    ∧ (∀ k v, load w extra !! k = Some v → vnet !! k = None → labels !! k = Some v)
    ∧ (∀ k v, load w (corev1beta1.Labels claim) !! k = Some v →
              load w extra !! k = None → vnet !! k = None → labels !! k = Some v)
    ∧ dom labels
      = dom vnet ∪ dom (load w extra) ∪ dom (load w (corev1beta1.Labels claim)).
Proof.
  intros Hcalls Hin.
  destruct (GetTemplate_run range allowUndefined skus p ctx nc claim it extra w)
    as (trace' & Hcalls' & Hrun).
  rewrite Hcalls in Hcalls'. apply app_inv_head in Hcalls' as <-.
  destruct (GetTemplate range allowUndefined skus p ctx nc claim it extra w) as [r w'].
  simpl in *. clear Hcalls.
  assert (∃ id sp0 version,
            v1alpha2.VnetSubnetID (v1alpha2.Spec nc) = Some id
            ∧ (3 ≤ List.length (segments id))%nat
            ∧ built allowUndefined ctx nc claim it extra w id sp0 w'
            ∧ sp = parameters.with_KubernetesVersion sp0 version)
    as (id & sp0 & version & Hid & Hlen & (l & Hl & _ & Hmap & _) & ->).
  { inversion Hrun; subst; trace_cases; eauto 10. }
  exists (vnetLabelsOf id w), (vnetLabelsOf id w
                               ∪ (load w extra ∪ load w (corev1beta1.Labels claim))).
  split; [|split; [|split; [|split; [|split; [|split]]]]].
  - unfold returned. rewrite (getVnetLabelValues_labels nc id w Hid Hlen).
    fold (vnetLabelsOf id w). unfold alloc. by rewrite load_store.
  - change (parameters.Labels (parameters.with_KubernetesVersion sp0 version))
      with (parameters.Labels sp0).
    rewrite Hl. unfold load. by rewrite Hmap.
  - reflexivity.
  - intros k v Hk. apply lookup_union_Some_raw. by left.
  - intros k v Hk Hvnet. apply lookup_union_Some_raw. right. split; [done|].
    apply lookup_union_Some_raw. by left.
  - intros k v Hk Hextra Hvnet. apply lookup_union_Some_raw. right. split; [done|].
    apply lookup_union_Some_raw. by right.
  - rewrite !dom_union_L. by rewrite (assoc_L (∪)).
Qed.

(** C10.  [GetTemplate] and the static parameter builder write to no map
    that exists when they are called, whatever their outcome: the node
    claim's labels, the additional labels and the node class's tags read the
    same afterwards.  The labels of the static parameters, the tags of the
    template and the results of [mergeTags] and [lo.Assign] are maps at
    addresses that were unused before the call. *)
Theorem GetTemplate_inputs_unchanged p ctx nc claim it extra w :
  maps w ⊆ maps (GetTemplate range allowUndefined skus p ctx nc claim it extra w).2
  ∧ ptrmaps w ⊆ ptrmaps (GetTemplate range allowUndefined skus p ctx nc claim it extra w).2
  ∧ (∀ r, r ∈ [corev1beta1.Labels claim; extra; v1alpha2.Tags (v1alpha2.Spec nc)] →
          valid w r →
          load (GetTemplate range allowUndefined skus p ctx nc claim it extra w).2 r
          = load w r)
  ∧ (∀ trace sp,
       calls (GetTemplate range allowUndefined skus p ctx nc claim it extra w).2
       = calls w ++ trace →
       ResolveCall sp ∈ trace →
       ∃ l, parameters.Labels sp = Some l ∧ l ∉ dom (maps w))
  ∧ (∀ tmpl err,
       (GetTemplate range allowUndefined skus p ctx nc claim it extra w).1
       = Returns (Some tmpl, err) →
       ∃ l, Tags tmpl = Some l ∧ l ∉ dom (ptrmaps w))
  ∧ (∀ labels w0,
       extends w0 (getStaticParameters allowUndefined skus p ctx it nc labels w0).2
       ∧ ∀ sp,
           (getStaticParameters allowUndefined skus p ctx it nc labels w0).1 = Returns sp →
           ∃ l, parameters.Labels sp = Some l ∧ l ∉ dom (maps w0))
  ∧ (∀ tags w0,
       extends w0 (mergeTags range tags w0).2
       ∧ ∃ l, (mergeTags range tags w0).1 = Returns (Some l) ∧ l ∉ dom (ptrmaps w0))
  ∧ (∀ ms w0,
       extends w0 (lo.Assign ms w0).2
       ∧ ∃ l, (lo.Assign ms w0).1 = Returns (Some l) ∧ l ∉ dom (maps w0)).
Proof.
  pose proof (framed_GetTemplate range allowUndefined skus p ctx nc claim it extra w)
    as Hext.
  destruct (GetTemplate_run range allowUndefined skus p ctx nc claim it extra w)
    as (trace' & Hcalls' & Hrun).
  destruct (GetTemplate range allowUndefined skus p ctx nc claim it extra w) as [r w'].
  simpl in *.
  split; [apply Hext|]. split; [apply Hext|]. split; [|split; [|split; [|split; [|split]]]].
  - intros r0 _ Hvalid. by apply extends_load.
  - intros trace sp Hcalls Hin. rewrite Hcalls in Hcalls'.
    apply app_inv_head in Hcalls' as <-.
    assert (∃ id sp0 version,
              built allowUndefined ctx nc claim it extra w id sp0 w'
              ∧ sp = parameters.with_KubernetesVersion sp0 version)
      as (id & sp0 & version & (l & Hl & Hfresh & _) & ->).
    { inversion Hrun; subst; trace_cases; eauto 10. }
    by exists l.
  - intros tmpl err ->. inversion Hrun; subst. eexists. split; [reflexivity | assumption].
  - intros labels w0. split; [apply framed_getStaticParameters|].
    intros sp Hsp.
    destruct (getStaticParameters allowUndefined skus p ctx it nc labels w0)
      as [r1 w1] eqn:Hrun1. simpl in Hsp. subst r1.
    apply getStaticParameters_inv in Hrun1 as (id & l & _ & _ & Hl & Hfresh & _).
    by exists l.
  - intros tags w0. split; [apply framed_mergeTags|].
    eexists. split; [reflexivity | apply is_fresh].
  - intros ms w0. split; [apply framed_Assign|].
    eexists. split; [reflexivity | apply is_fresh].
Qed.
End TemplateProvider.

(** ** The cluster marker *)

Section ClusterMarker.
Variable range : gmap string string → list (string * string).
Hypothesis range_order : iteration_order range.
Variable allowUndefined : gset string.
Variable skus : utils.Classifier.

(** C8, as amended.  The tags of the template are what the tag merger
    makes of the resolver's tags followed by the entry from
    ["karpenter.azure.com/cluster"] to the cluster name: the keys are those of
    the union, sanitized.  Unless the resolver's tags hold the sanitized key
    ["karpenter.azure.com_cluster"] themselves, the cluster name is the value
    stored under it, also when they hold ["karpenter.azure.com/cluster"]; the
    other tags keep their values when they share their sanitized key with no
    other tag. *)
Theorem createLaunchTemplate_tags params script w :
  parameters.UserData params = (script, None) →
  valid w (parameters.PTags params) →
  ∃ t, template_tags (createLaunchTemplate range (Some params) w) = Some t
       ∧ t = merged_tags range
               [load w (parameters.PTags params);
                {[karpenterManagedTagKey := parameters.PClusterName params]}]
       ∧ dom t = set_map sanitize
                   ({[karpenterManagedTagKey]} ∪ dom (load w (parameters.PTags params)))
       ∧ (load w (parameters.PTags params) !! sanitize karpenterManagedTagKey = None →
          t !! sanitize karpenterManagedTagKey
          = Some (to.StringPtr (parameters.PClusterName params)))
       ∧ (∀ k v,
            load w (parameters.PTags params) !! k = Some v →
            sanitize k ≠ sanitize karpenterManagedTagKey →
            (∀ k', is_Some (load w (parameters.PTags params) !! k') →
                   sanitize k' = sanitize k → k' = k) →
            t !! sanitize k = Some (to.StringPtr v)).
Proof using range_order.
  intros Hscript Hvalid.
  destruct (createLaunchTemplate_returns range params script w Hscript)
    as (l & w' & Hrun & _ & _ & _ & _ & Hcontent).
  specialize (Hcontent Hvalid).
  pose proof (marker_tags_facts range range_order (load w (parameters.PTags params))
                (parameters.PClusterName params)) as Hfacts.
  cbv zeta in Hfacts. destruct Hfacts as (_ & _ & Hdom & _ & Hmarker & Hothers).
  eexists. split; [|split; [reflexivity | split; [exact Hdom | split; assumption]]].
  rewrite Hrun. unfold template_tags, load_ptrs. cbn [Tags]. by rewrite Hcontent.
Qed.

(** C9, as amended.  The tags of a template returned by [GetTemplate] have no
    entry under ["karpenter.azure.com/cluster"] (no key contains ["/"]) and
    have one under ["karpenter.azure.com_cluster"]; its value is the cluster
    name of the resolved parameters unless the resolver's tags hold
    ["karpenter.azure.com_cluster"] themselves.  The resolver's tags are taken
    to be nil, a map of the caller or the labels it was handed. *)
Theorem GetTemplate_cluster_marker p ctx nc claim it extra w trace tmpl err :
  (GetTemplate range allowUndefined skus p ctx nc claim it extra w).1
  = Returns (Some tmpl, err) →
  calls (GetTemplate range allowUndefined skus p ctx nc claim it extra w).2
  = calls w ++ trace →
  (∀ sp params,
     ResolveCall sp ∈ trace →
     imageFamily p ctx nc claim it sp = (Some params, None) →
     valid w (parameters.PTags params)
     ∨ parameters.PTags params = parameters.Labels sp) →
  ∃ sp params t,
    ResolveCall sp ∈ trace
    ∧ imageFamily p ctx nc claim it sp = (Some params, None)
    ∧ load_ptrs (GetTemplate range allowUndefined skus p ctx nc claim it extra w).2
        (Tags tmpl) = t
    ∧ t !! karpenterManagedTagKey = None
    ∧ (∀ k, k ∈ dom t → Strings.Contains k "/" = false)
    ∧ is_Some (t !! sanitize karpenterManagedTagKey)
    ∧ (load (GetTemplate range allowUndefined skus p ctx nc claim it extra w).2
         (parameters.PTags params) !! sanitize karpenterManagedTagKey = None →
       t !! sanitize karpenterManagedTagKey
       = Some (to.StringPtr (parameters.PClusterName params))).
Proof using range_order.
  intros Hresult Hcalls Hresolver.
  destruct (GetTemplate_run range allowUndefined skus p ctx nc claim it extra w)
    as (trace' & Hcalls' & Hrun).
  rewrite Hcalls in Hcalls'. apply app_inv_head in Hcalls' as <-.
  destruct (GetTemplate range allowUndefined skus p ctx nc claim it extra w) as [r w'].
  simpl in *. subst r. clear Hcalls.
  inversion Hrun as
    [ | | | | |
    | id sp0 v0 pa0 s0 l0 w1 Hid Hlen Hbuilt Hv Hres Hscript Hfresh Hsome Hcontent ];
    subst.
  assert (ResolveCall (parameters.with_KubernetesVersion sp0 v0)
          ∈ [KubeServerVersionCall;
             ResolveCall (parameters.with_KubernetesVersion sp0 v0); ScriptCall]) as Hin.
  { apply elem_of_cons. right. apply elem_of_cons. by left. }
  specialize (Hcontent (Hresolver _ _ Hin Hres)).
  pose proof (marker_tags_facts range range_order (load w' (parameters.PTags pa0))
                (parameters.PClusterName pa0)) as Hfacts.
  cbv zeta in Hfacts. destruct Hfacts as (Hnone & Hclean & _ & Hsome' & Hmarker & _).
  exists (parameters.with_KubernetesVersion sp0 v0), pa0. eexists.
  split; [exact Hin|]. split; [exact Hres|].
  split; [unfold load_ptrs; cbn [Tags]; rewrite Hcontent; reflexivity|].
  repeat split; assumption.
Qed.
End ClusterMarker.

(** ** Examples, witnesses and counterexamples *)

(** Scenario 4: the resolver fails, the error comes back without a template
    and no boot script is rendered. *)
Example GetTemplate_resolution_failure :
  failing_run.1 = Returns (None, Some "no image")
  ∧ ScriptCall ∉ calls failing_run.2.
Proof.
  split; [vm_compute; reflexivity|].
  intros H.
  assert (∃ sp, calls failing_run.2 = [KubeServerVersionCall; ResolveCall sp])
    as [sp Heq] by (eexists; vm_compute; reflexivity).
  rewrite Heq in H. trace_cases.
Qed.

(** Scenario 3: the detected architecture of two instance types. *)
Example detectedArch_amd64_only :
  detectedArch ∅ amd64_instance = "amd64" ∧ detectedArch ∅ both_instance = "arm64".
Proof. split; vm_compute; reflexivity. Qed.

Lemma GetTemplate_label_precedence_witness :
  calls labelled_run.2 = calls labelled ++ labelled_trace
  ∧ (∃ sp, ResolveCall sp ∈ labelled_trace
           ∧ ∃ vnet labels,
               returned (getVnetLabelValues (nodeClass_of (Some subnet1) None)) labelled
               = Some vnet
               ∧ load labelled_run.2 (parameters.Labels sp) = labels
               ∧ labels
                 = vnet ∪ (load labelled (Some 2%positive)
                           ∪ load labelled (Some 1%positive))).
Proof.
  assert (calls labelled_run.2 = calls labelled ++ labelled_trace) as Hcalls
    by (vm_compute; reflexivity).
  split; [exact Hcalls|].
  eexists. split; [unfold labelled_trace; apply elem_of_cons; right;
                   apply elem_of_cons; left; reflexivity|].
  unfold labelled_run in *.
  match goal with |- context [parameters.Labels ?sp] =>
    destruct (GetTemplate_label_precedence map_to_list ∅ no_gpu working_provider
                example_context (nodeClass_of (Some subnet1) None)
                {| corev1beta1.Labels := Some 1%positive |} amd64_instance
                (Some 2%positive) labelled labelled_trace sp Hcalls)
      as (vnet & labels & Hvnet & Hload & Hlabels & _)
  end.
  { unfold labelled_trace. apply elem_of_cons. right. apply elem_of_cons. left.
    reflexivity. }
  exists vnet, labels. split; [exact Hvnet|]. split; [exact Hload | exact Hlabels].
Defined.

Lemma createLaunchTemplate_tags_witness :
  parameters.UserData (parameters_of (Some 1%positive)) = ("#!/bin/bash", None)
  ∧ valid scenario_tags (parameters.PTags (parameters_of (Some 1%positive)))
  ∧ ∃ t, template_tags
           (createLaunchTemplate map_to_list (Some (parameters_of (Some 1%positive)))
              scenario_tags) = Some t
         ∧ t !! sanitize karpenterManagedTagKey = Some (to.StringPtr "cluster1").
Proof.
  assert (valid scenario_tags (parameters.PTags (parameters_of (Some 1%positive))))
    as Hvalid
    by (change (1%positive ∈ dom (maps scenario_tags)); apply elem_of_dom; eexists;
        reflexivity).
  split; [reflexivity|]. split; [exact Hvalid|].
  destruct (createLaunchTemplate_tags map_to_list map_to_list_order
              (parameters_of (Some 1%positive)) "#!/bin/bash" scenario_tags
              eq_refl Hvalid) as (t & Ht & _ & _ & Hmarker & _).
  exists t. split; [exact Ht|]. apply Hmarker. vm_compute. reflexivity.
Defined.

Lemma GetTemplate_cluster_marker_witness :
  tagged_run.1
  = Returns (Some {| UserData := "#!/bin/bash"; ImageID := "image1";
                     Tags := Some 1%positive |}, None)
  ∧ calls tagged_run.2 = calls scenario_tags ++ tagged_trace
  ∧ ∃ t, load_ptrs tagged_run.2 (Some 1%positive) = t
         ∧ t !! karpenterManagedTagKey = None
         ∧ t !! sanitize karpenterManagedTagKey = Some (to.StringPtr "cluster1").
Proof.
  assert (tagged_run.1
          = Returns (Some {| UserData := "#!/bin/bash"; ImageID := "image1";
                             Tags := Some 1%positive |}, None)) as Hresult
    by (vm_compute; reflexivity).
  assert (calls tagged_run.2 = calls scenario_tags ++ tagged_trace) as Hcalls
    by (vm_compute; reflexivity).
  split; [exact Hresult|]. split; [exact Hcalls|].
  unfold tagged_run in *.
  destruct (GetTemplate_cluster_marker map_to_list map_to_list_order ∅ no_gpu
              working_provider example_context
              (nodeClass_of (Some subnet1) (Some 2%positive))
              {| corev1beta1.Labels := None |} amd64_instance None scenario_tags
              tagged_trace _ _ Hresult Hcalls)
    as (sp & params & t & Hin & Hres & Ht & Hnone & _ & _ & Hmarker).
  { intros sp params Hin Hres. left. unfold tagged_trace in Hin.
    apply elem_of_cons in Hin as [Hin|Hin]; [discriminate Hin|].
    apply elem_of_cons in Hin as [Hin|Hin]; last first.
    { apply list_elem_of_singleton in Hin. discriminate Hin. }
    injection Hin as ->.
    injection Hres as <-. change (2%positive ∈ dom (maps scenario_tags)).
    apply elem_of_dom. eexists. reflexivity. }
  exists t. split; [exact Ht|]. split; [exact Hnone|].
  unfold tagged_trace in Hin.
  apply elem_of_cons in Hin as [Hin|Hin]; [discriminate Hin|].
  apply elem_of_cons in Hin as [Hin|Hin]; last first.
  { apply list_elem_of_singleton in Hin. discriminate Hin. }
  injection Hin as ->. injection Hres as <-.
  apply Hmarker. vm_compute. reflexivity.
Defined.

(** C8, as stated, fails.  Without resolver tags the template's tags are
    [{"karpenter.azure.com_cluster": "cluster1"}], not the union with the
    entry under ["karpenter.azure.com/cluster"].  And when the resolver's tags
    hold ["karpenter.azure.com/cluster"] and ["karpenter.azure.com_cluster"],
    an iteration order that visits the latter last leaves its value ["y"] in
    the template: the cluster name does not win. *)
Lemma createLaunchTemplate_marker_not_literal :
  template_tags (createLaunchTemplate map_to_list (Some (parameters_of None)) empty_world)
  = Some {["karpenter.azure.com_cluster" := Some "cluster1"]}
  ∧ to.StringPtr <$> ({[karpenterManagedTagKey := "cluster1"]} ∪ load empty_world None)
    ≠ {["karpenter.azure.com_cluster" := Some "cluster1"]}
  ∧ iteration_order reversed
  ∧ load marker_both (Some 1%positive) !! karpenterManagedTagKey = Some "x"
  ∧ template_tags
      (createLaunchTemplate reversed (Some (parameters_of (Some 1%positive))) marker_both)
    = Some {["karpenter.azure.com_cluster" := Some "y"]}.
Proof.
  split; [apply (bool_decide_unpack _); vm_compute; exact I|].
  split.
  { intros H. apply (f_equal (λ m, m !! karpenterManagedTagKey)) in H.
    vm_compute in H. discriminate H. }
  split; [exact reversed_order|]. split; [vm_compute; reflexivity|].
  apply (bool_decide_unpack _). vm_compute. exact I.
Qed.

(** C9, as stated, fails.  The node class declares the tag
    ["karpenter.azure.com_cluster"] with the value ["y"]; with an iteration
    order that visits it last, the template returned by [GetTemplate] holds
    ["y"] under that key and the cluster name ["cluster1"] nowhere. *)
Lemma GetTemplate_marker_displaced :
  iteration_order reversed
  ∧ load marker_tags (Some 1%positive) = {["karpenter.azure.com_cluster" := "y"]}
  ∧ template_tags marker_run = Some {["karpenter.azure.com_cluster" := Some "y"]}.
Proof.
  split; [exact reversed_order|].
  split; apply (bool_decide_unpack _); vm_compute; exact I.
Qed.

(** * Further properties

    ** The subnet identifier and its labels *)

Example arm_subnet_id_subnet1 : arm_subnet_id "sub1" "rg" "vnet1" "subnet1" = subnet1.
Proof. reflexivity. Qed.

Lemma Split_clean s sep : Strings.Contains s sep = false → Strings.Split s sep = [s].
Proof.
  induction s as [|c s IH]; [done|]. simpl.
  intros [Hc Hs]%orb_false_elim. by rewrite Hc, IH.
Qed.

Lemma Split_append s1 s2 sep :
  Strings.Split (s1 +:+ String sep s2) sep = Strings.Split s1 sep ++ Strings.Split s2 sep.
Proof.
  induction s1 as [|c s1 IH].
  - change (EmptyString +:+ String sep s2)%string with (String sep s2).
    simpl. by rewrite Ascii.eqb_refl.
  - rewrite append_String. simpl. rewrite IH.
    destruct (Ascii.eqb c sep); [done|].
    pose proof (Split_nonempty s1 sep). by destruct (Strings.Split s1 sep).
Qed.

Lemma Split_Join parts sep :
  parts ≠ [] → Forall (λ part, Strings.Contains part sep = false) parts →
  Strings.Split (Join parts sep) sep = parts.
Proof.
  intros Hne Hparts. induction Hparts as [|part rest Hpart Hrest IH]; [done|].
  destruct rest as [|part' rest]; [by apply Split_clean|].
  change (Join (part :: part' :: rest) sep)
    with (part +:+ String sep (Join (part' :: rest) sep))%string.
  rewrite Split_append, Split_clean, IH by done. done.
Qed.

Lemma Join_Split s sep : Join (Strings.Split s sep) sep = s.
Proof.
  induction s as [|c s IH]; [done|]. simpl.
  destruct (Ascii.eqb_spec c sep) as [->|Hc].
  - pose proof (Split_nonempty s sep).
    destruct (Strings.Split s sep) as [|p ps] eqn:Hs; [done|].
    change (Join (EmptyString :: p :: ps) sep) with (String sep (Join (p :: ps) sep)).
    by rewrite IH.
  - pose proof (Split_nonempty s sep).
    destruct (Strings.Split s sep) as [|p ps] eqn:Hs; [done|].
    destruct ps as [|p' ps].
    + simpl in *. by rewrite IH.
    + change (Join (String c p :: p' :: ps) sep)
        with (String c (p +:+ String sep (Join (p' :: ps) sep)))%string.
      f_equal. exact IH.
Qed.

(** X1.  For a subnet identifier of at least three segments held by the node
    class, [getVnetLabelValues] returns a map at an unused address that holds
    exactly six labels: the data plane ["cilium"], the pod network type
    ["overlay"], the network name, subnet name and subscription taken from
    the segments, and the virtual-network GUID read from [AZURE_VNET_GUID],
    empty when the variable is unset.  Nothing else in the state changes. *)
Theorem getVnetLabelValues_new_map nc id w :
  v1alpha2.VnetSubnetID (v1alpha2.Spec nc) = Some id →
  (3 ≤ List.length (segments id))%nat →
  ∃ l,
    (getVnetLabelValues nc w).1 = Returns (Some l)
    ∧ (l ∉ dom (maps w))
    ∧ (getVnetLabelValues nc w).2
      = store l
          {[ vnetDataPlaneLabel := "cilium";
             vnetNetworkNameLabel := segment id (List.length (segments id) - 3);
             vnetSubnetNameLabel := segment id (List.length (segments id) - 1);
             vnetSubscriptionIDLabel := segment id 2;
             vnetGUIDLabel := default EmptyString (environ w !! "AZURE_VNET_GUID");
             vnetPodNetworkTypeLabel := "overlay" ]} w.
Proof.
  intros Hid Hlen. rewrite (getVnetLabelValues_labels nc id w Hid Hlen).
  exists (fresh (dom (maps w))). split; [reflexivity|]. split; [apply is_fresh|].
  reflexivity.
Qed.

Lemma getVnetLabelValues_new_map_witness :
  ∃ l, (getVnetLabelValues (nodeClass_of (Some subnet1) None) empty_world).1
       = Returns (Some l)
       ∧ l ∉ dom (maps empty_world).
Proof.
  destruct (getVnetLabelValues_new_map (nodeClass_of (Some subnet1) None) subnet1
              empty_world) as (l & Hl & Hfresh & _);
    [reflexivity | vm_compute; lia |].
  exists l. split; [exact Hl | exact Hfresh].
Defined.

Lemma getVnetLabelValues_of_parts nc parts w :
  v1alpha2.VnetSubnetID (v1alpha2.Spec nc) = Some (Join parts "/") →
  Forall (λ part, Strings.Contains part "/" = false) parts →
  (3 ≤ List.length parts)%nat →
  ∃ m, returned (getVnetLabelValues nc) w = Some m
       ∧ m !! vnetSubscriptionIDLabel = parts !! 2%nat
       ∧ m !! vnetNetworkNameLabel = parts !! (List.length parts - 3)%nat
       ∧ m !! vnetSubnetNameLabel = last parts.
Proof.
  intros Hid Hparts Hlen.
  assert (segments (Join parts "/") = parts) as Hsegments.
  { apply Split_Join; [|done]. intros ->. simpl in Hlen. lia. }
  destruct (getVnetLabelValues_field nc (Join parts "/") w Hid)
    as (m & Hm & _ & Hsub & Hnet & Hsubnet & _).
  { rewrite Hsegments. exact Hlen. }
  exists m. split; [exact Hm|]. unfold segment in *. rewrite Hsegments in *.
  rewrite Hsub, Hnet, Hsubnet.
  assert (∀ i, (i < List.length parts)%nat →
               Some (nth i parts EmptyString) = parts !! i) as Hnth.
  { intros i Hi. destruct (lookup_lt_is_Some_2 parts i Hi) as [x Hx].
    by rewrite Hx, (nth_lookup_Some _ _ _ _ Hx). }
  rewrite !Hnth by lia. rewrite last_lookup.
  repeat split; try reflexivity. f_equal. lia.
Qed.

(** X2.  Splitting undoes joining: when the identifier is [n ≥ 3] segments
    without ["/"] joined by ["/"], its segments are those, and the labels are
    segment 2 (the subscription), segment [n - 3] (the network) and the last
    segment (the subnet). *)
Theorem getVnetLabelValues_joined nc parts w :
  v1alpha2.VnetSubnetID (v1alpha2.Spec nc) = Some (Join parts "/") →
  Forall (λ part, Strings.Contains part "/" = false) parts →
  (3 ≤ List.length parts)%nat →
  segments (Join parts "/") = parts
  ∧ ∃ m, returned (getVnetLabelValues nc) w = Some m
         ∧ m !! vnetSubscriptionIDLabel = parts !! 2%nat
         ∧ m !! vnetNetworkNameLabel = parts !! (List.length parts - 3)%nat
         ∧ m !! vnetSubnetNameLabel = last parts.
Proof.
  intros Hid Hparts Hlen. split; [|by apply getVnetLabelValues_of_parts].
  apply Split_Join; [|done]. intros ->. simpl in Hlen. lia.
Qed.

Lemma getVnetLabelValues_joined_witness :
  ∃ m, returned (getVnetLabelValues (nodeClass_of (Some "a/b/c/d") None)) empty_world
       = Some m
       ∧ m !! vnetSubscriptionIDLabel = Some "c"
       ∧ m !! vnetNetworkNameLabel = Some "b"
       ∧ m !! vnetSubnetNameLabel = Some "d".
Proof.
  destruct (getVnetLabelValues_joined (nodeClass_of (Some "a/b/c/d") None)
              ["a"; "b"; "c"; "d"] empty_world) as (_ & m & Hm & H2 & H3 & H4).
  - reflexivity.
  - repeat constructor.
  - simpl. lia.
  - exists m. split; [exact Hm|]. split; [exact H2|]. split; [exact H3 | exact H4].
Defined.

(** X3.  For an identifier of the Azure form
    [/subscriptions/S/resourceGroups/R/providers/Microsoft.Network/virtualNetworks/V/subnets/N]
    the labels are [S], [V] and [N].  The index of the subscription counts
    the empty segment before the leading ["/"]: the same identifier without
    the leading ["/"] gets the subscription label ["resourceGroups"], while
    network and subnet, counted from the end, are still [V] and [N]. *)
Theorem getVnetLabelValues_arm_form nc subscription resourceGroup vnet subnet w :
  Forall (λ part, Strings.Contains part "/" = false)
    [subscription; resourceGroup; vnet; subnet] →
  (v1alpha2.VnetSubnetID (v1alpha2.Spec nc)
   = Some (arm_subnet_id subscription resourceGroup vnet subnet) →
   ∃ m, returned (getVnetLabelValues nc) w = Some m
        ∧ m !! vnetSubscriptionIDLabel = Some subscription
        ∧ m !! vnetNetworkNameLabel = Some vnet
        ∧ m !! vnetSubnetNameLabel = Some subnet)
  ∧ (v1alpha2.VnetSubnetID (v1alpha2.Spec nc)
     = Some (Join ["subscriptions"; subscription; "resourceGroups"; resourceGroup;
                   "providers"; "Microsoft.Network"; "virtualNetworks"; vnet;
                   "subnets"; subnet] "/") →
     ∃ m, returned (getVnetLabelValues nc) w = Some m
          ∧ m !! vnetSubscriptionIDLabel = Some "resourceGroups"
          ∧ m !! vnetNetworkNameLabel = Some vnet
          ∧ m !! vnetSubnetNameLabel = Some subnet).
Proof.
  intros Hclean.
  apply Forall_cons in Hclean as [Hsub Hclean].
  apply Forall_cons in Hclean as [Hrg Hclean].
  apply Forall_cons in Hclean as [Hvnet Hclean].
  apply Forall_cons in Hclean as [Hsubnet _].
  split; intros Hid.
  - destruct (getVnetLabelValues_of_parts nc _ w Hid) as (m & Hm & H2 & H3 & H4);
      [repeat (constructor; [done|]); constructor | simpl; lia |].
    by exists m.
  - destruct (getVnetLabelValues_of_parts nc _ w Hid) as (m & Hm & H2 & H3 & H4);
      [repeat (constructor; [done|]); constructor | simpl; lia |].
    by exists m.
Qed.

Lemma getVnetLabelValues_arm_form_witness :
  ∃ m, returned (getVnetLabelValues (nodeClass_of (Some subnet1) None)) empty_world
       = Some m
       ∧ m !! vnetSubscriptionIDLabel = Some "sub1"
       ∧ m !! vnetNetworkNameLabel = Some "vnet1"
       ∧ m !! vnetSubnetNameLabel = Some "subnet1".
Proof.
  apply (getVnetLabelValues_arm_form (nodeClass_of (Some subnet1) None)
           "sub1" "rg" "vnet1" "subnet1" empty_world).
  - repeat constructor.
  - reflexivity.
Defined.

(** X4.  The environment variable [AZURE_SUBNET_ID] has no effect on
    [getVnetLabelValues]: whatever its value, the outcome and the labels
    returned are the same, and a node class without subnet identifier makes
    the call panic with a nil dereference. *)
Theorem getVnetLabelValues_ignores_fallback nc value w :
  (getVnetLabelValues nc (Setenv "AZURE_SUBNET_ID" value w)).1
  = (getVnetLabelValues nc w).1
  ∧ returned (getVnetLabelValues nc) (Setenv "AZURE_SUBNET_ID" value w)
    = returned (getVnetLabelValues nc) w
  ∧ (v1alpha2.VnetSubnetID (v1alpha2.Spec nc) = None →
     (getVnetLabelValues nc (Setenv "AZURE_SUBNET_ID" value w)).1
     = Panics NilDereference).
Proof.
  destruct (v1alpha2.VnetSubnetID (v1alpha2.Spec nc)) as [id|] eqn:Hid; last first.
  { unfold returned. rewrite !getVnetLabelValues_nil by done. done. }
  split; [|split; [|done]].
  - destruct (decide (List.length (segments id) < 3)%nat) as [Hlen|Hlen].
    + by rewrite !(getVnetLabelValues_short nc id) by done.
    + apply Nat.nlt_ge in Hlen. by rewrite !(getVnetLabelValues_labels nc id) by done.
  - unfold returned.
    destruct (decide (List.length (segments id) < 3)%nat) as [Hlen|Hlen].
    + by rewrite !(getVnetLabelValues_short nc id) by done.
    + apply Nat.nlt_ge in Hlen. rewrite !(getVnetLabelValues_labels nc id) by done.
      unfold alloc. rewrite !load_store. do 2 f_equal.
      unfold Setenv. cbn [environ]. by rewrite lookup_insert_ne.
Qed.

(** ** The template provider *)

Section MoreProviderFacts.
Variable range : gmap string string → list (string * string).
Variable allowUndefined : gset string.
Variable skus : utils.Classifier.

Lemma getStaticParameters_calls p ctx it nc labels w :
  calls (getStaticParameters allowUndefined skus p ctx it nc labels w).2 = calls w.
Proof.
  destruct (v1alpha2.VnetSubnetID (v1alpha2.Spec nc)) as [id|] eqn:Hid; last first.
  { by rewrite getStaticParameters_nil. }
  destruct (decide (List.length (segments id) < 3)%nat) as [Hlen|Hlen].
  { by rewrite (getStaticParameters_short _ _ _ _ _ _ _ id). }
  apply Nat.nlt_ge in Hlen.
  destruct (getStaticParameters_returns allowUndefined skus p ctx it nc labels id w
              Hid Hlen) as (sp & l & w' & Hrun & _ & _ & _ & _ & _ & _ & _ & Hcalls & _).
  by rewrite Hrun.
Qed.

Lemma createLaunchTemplate_calls params w :
  calls (createLaunchTemplate range params w).2
  = calls w ++ match params with Some _ => [ScriptCall] | None => [] end.
Proof.
  destruct params as [params|]; [|by rewrite createLaunchTemplate_nil, app_nil_r].
  destruct (parameters.UserData params) as [script [err|]] eqn:Hscript.
  - by rewrite (createLaunchTemplate_script_fails _ _ _ _ _ Hscript).
  - destruct (createLaunchTemplate_returns range params script w Hscript)
      as (l & w' & Hrun & _ & _ & Hcalls & _).
    by rewrite Hrun.
Qed.

(** The fields of the static parameters the builder returns. *)
Lemma getStaticParameters_fields p ctx it nc labels w sp w' :
  getStaticParameters allowUndefined skus p ctx it nc labels w = (Returns sp, w') →
  parameters.ClusterName sp = options.ClusterName (FromContext ctx)
  ∧ parameters.ClusterEndpoint sp = clusterEndpoint p
  ∧ parameters.Tags sp = v1alpha2.Tags (v1alpha2.Spec nc)
  ∧ parameters.CABundle sp = caBundle p
  ∧ parameters.GPUNode sp = utils.IsNvidiaEnabledSKU skus (cloudprovider.Name it)
  ∧ parameters.GPUDriverVersion sp = utils.GetGPUDriverVersion skus (cloudprovider.Name it)
  ∧ parameters.GPUImageSHA sp = utils.GetAKSGPUImageSHA skus (cloudprovider.Name it)
  ∧ parameters.TenantID sp = tenantID p
  ∧ parameters.SubscriptionID sp = subscriptionID p
  ∧ parameters.UserAssignedIdentityID sp = userAssignedIdentityID p
  ∧ parameters.ResourceGroup sp = resourceGroup p
  ∧ parameters.Location sp = location p
  ∧ parameters.ClusterID sp = options.ClusterID (FromContext ctx)
  ∧ parameters.APIServerName sp = options.GetAPIServerName (FromContext ctx)
  ∧ parameters.KubeletClientTLSBootstrapToken sp
    = options.KubeletClientTLSBootstrapToken (FromContext ctx)
  ∧ parameters.NetworkPlugin sp = options.NetworkPlugin (FromContext ctx)
  ∧ parameters.NetworkPolicy sp = options.NetworkPolicy (FromContext ctx).
Proof.
  intros Hrun.
  destruct (v1alpha2.VnetSubnetID (v1alpha2.Spec nc)) as [id|] eqn:Hid; last first.
  { rewrite getStaticParameters_nil in Hrun by exact Hid. discriminate Hrun. }
  destruct (decide (List.length (segments id) < 3)%nat) as [Hlen|Hlen].
  { rewrite (getStaticParameters_short _ _ _ _ _ _ _ id) in Hrun by assumption.
    discriminate Hrun. }
  apply Nat.nlt_ge in Hlen. unfold getStaticParameters in Hrun.
  rewrite bind_run, (getVnetLabelValues_labels nc id w Hid Hlen) in Hrun.
  unfold alloc in Hrun. rewrite bind_run, Assign_run in Hrun.
  injection Hrun as <- _. repeat split; reflexivity.
Qed.

(** The static parameters a run hands to the resolver are those the builder
    returns, with the version the image provider returned. *)
Lemma GetTemplate_resolver_input p ctx nc claim it extra w trace sp :
  calls (GetTemplate range allowUndefined skus p ctx nc claim it extra w).2
  = calls w ++ trace →
  ResolveCall sp ∈ trace →
  ∃ labels w0 sp0 w1 version,
    lo.Assign [corev1beta1.Labels claim; extra] w = (Returns labels, w0)
    ∧ getStaticParameters allowUndefined skus p ctx it nc labels w0 = (Returns sp0, w1)
    ∧ imageProvider p ctx = (version, None)
    ∧ sp = parameters.with_KubernetesVersion sp0 version.
Proof.
  unfold GetTemplate. rewrite bind_run, Assign_run.
  set (l0 := fresh (dom (maps w))). set (w0 := store l0 _ w).
  pose proof (getStaticParameters_calls p ctx it nc (Some l0) w0) as Hcalls1.
  rewrite bind_run.
  destruct (getStaticParameters allowUndefined skus p ctx it nc (Some l0) w0)
    as [[sp0|pn] w1] eqn:Hsp; cbn [snd] in Hcalls1.
  2:{ cbn [snd]. rewrite Hcalls1. change (calls w0) with (calls w).
      intros Heq Hin. rewrite <-(app_nil_r (calls w)) in Heq at 1.
      apply app_inv_head in Heq as <-. by apply elem_of_nil in Hin. }
  change (calls w0) with (calls w) in Hcalls1.
  rewrite bind_run. cbn [record fst snd].
  destruct (imageProvider p ctx) as [version [err|]] eqn:Hversion.
  { cbn [mret go_ret ret snd logged calls]. rewrite Hcalls1.
    intros Heq%app_inv_head Hin. subst trace.
    apply list_elem_of_singleton in Hin. discriminate Hin. }
  rewrite bind_run. cbn [record fst snd].
  set (sp' := parameters.with_KubernetesVersion sp0 version).
  set (w3 := logged (ResolveCall sp') (logged KubeServerVersionCall w1)).
  assert (calls w3 = calls w ++ [KubeServerVersionCall; ResolveCall sp']) as Hcalls3.
  { unfold w3, logged. cbn [calls]. rewrite Hcalls1. by rewrite <-(assoc_L (++)). }
  assert (∀ tail final, calls final = calls w3 ++ tail →
            (∀ c, c ∈ tail → c = ScriptCall) →
            calls final = calls w ++ trace → ResolveCall sp ∈ trace → sp = sp') as Hsp'.
  { intros tail final Hfinal Htail Heq Hin. rewrite Hfinal, Hcalls3 in Heq.
    rewrite <-(assoc_L (++)) in Heq. apply app_inv_head in Heq as <-.
    apply elem_of_cons in Hin as [Hin|Hin]; [discriminate Hin|].
    apply elem_of_cons in Hin as [Hin|Hin]; [by injection Hin|].
    apply Htail in Hin. discriminate Hin. }
  clearbody w3.
  intros Heq Hin. exists (Some l0), w0, sp0, w1, version.
  split; [reflexivity|]. split; [exact Hsp|]. split; [reflexivity|].
  destruct (imageFamily p ctx nc claim it sp') as [params [err|]] eqn:Hresolve.
  { apply (Hsp' [] w3); [by rewrite app_nil_r | by intros c ?%elem_of_nil | done..]. }
  rewrite bind_run in Heq.
  pose proof (createLaunchTemplate_calls params w3) as Hcalls4.
  destruct (createLaunchTemplate range params w3) as [[[tmpl [err|]]|pn] w4];
    cbn [snd] in *;
    (eapply (Hsp' _ w4); [exact Hcalls4 | | exact Heq | exact Hin]);
    destruct params; intros c Hc;
    first [by apply list_elem_of_singleton in Hc | by apply elem_of_nil in Hc].
Qed.
End MoreProviderFacts.

Section ProviderExtras.
Variable range : gmap string string → list (string * string).
Variable allowUndefined : gset string.
Variable skus : utils.Classifier.

(** X5.  The virtual-network labels cannot be overridden: in the static
    parameters handed to the resolver the six label keys hold the values
    derived from the subnet identifier and the environment, whatever the node
    claim's labels and the additional labels say for these keys. *)
Theorem GetTemplate_vnet_labels_win p ctx nc claim it extra w trace sp :
  calls (GetTemplate range allowUndefined skus p ctx nc claim it extra w).2
  = calls w ++ trace →
  ResolveCall sp ∈ trace →
  ∃ id labels,
    v1alpha2.VnetSubnetID (v1alpha2.Spec nc) = Some id
    ∧ load (GetTemplate range allowUndefined skus p ctx nc claim it extra w).2
        (parameters.Labels sp) = labels
    ∧ labels !! vnetDataPlaneLabel = Some "cilium"
    ∧ labels !! vnetPodNetworkTypeLabel = Some "overlay"
    ∧ labels !! vnetSubscriptionIDLabel = Some (segment id 2)
    ∧ labels !! vnetNetworkNameLabel = Some (segment id (List.length (segments id) - 3))
    ∧ labels !! vnetSubnetNameLabel = Some (segment id (List.length (segments id) - 1))
    ∧ labels !! vnetGUIDLabel = Some (default EmptyString (environ w !! "AZURE_VNET_GUID")).
Proof.
  intros Hcalls Hin.
  destruct (GetTemplate_run range allowUndefined skus p ctx nc claim it extra w)
    as (trace' & Hcalls' & Hrun).
  rewrite Hcalls in Hcalls'. apply app_inv_head in Hcalls' as <-.
  destruct (GetTemplate range allowUndefined skus p ctx nc claim it extra w) as [r w'].
  cbn [fst snd] in *. clear Hcalls.
  assert (∃ id sp0 version,
            v1alpha2.VnetSubnetID (v1alpha2.Spec nc) = Some id
            ∧ built allowUndefined ctx nc claim it extra w id sp0 w'
            ∧ sp = parameters.with_KubernetesVersion sp0 version)
    as (id & sp0 & version & Hid & (l & Hl & _ & Hmap & _) & ->).
  { inversion Hrun; subst; trace_cases; eauto 10. }
  exists id. eexists. split; [exact Hid|]. split; [reflexivity|].
  change (parameters.Labels (parameters.with_KubernetesVersion sp0 version))
    with (parameters.Labels sp0).
  rewrite Hl. unfold load. rewrite Hmap. cbn [default].
  pose proof (vnetLabels_lookup (segment id (List.length (segments id) - 3))
                (segment id (List.length (segments id) - 1)) (segment id 2)
                (default EmptyString (environ w !! "AZURE_VNET_GUID"))) as H.
  cbv zeta in H. fold (vnetLabelsOf id w) in H.
  destruct H as (H1 & H2 & H3 & H4 & H5 & H6).
  repeat split; apply lookup_union_Some_raw; left; assumption.
Qed.

(** X6.  When the node class holds no subnet identifier, or one with fewer
    than three segments, [GetTemplate] panics (it returns no error) before
    any collaborator is called. *)
Theorem GetTemplate_panics_before_calls p ctx nc claim it extra w :
  v1alpha2.VnetSubnetID (v1alpha2.Spec nc) = None
  ∨ (∃ id, v1alpha2.VnetSubnetID (v1alpha2.Spec nc) = Some id
           ∧ (List.length (segments id) < 3)%nat) →
  (∃ pn, (GetTemplate range allowUndefined skus p ctx nc claim it extra w).1 = Panics pn)
  ∧ calls (GetTemplate range allowUndefined skus p ctx nc claim it extra w).2 = calls w.
Proof.
  intros Hbad.
  destruct (GetTemplate_run range allowUndefined skus p ctx nc claim it extra w)
    as (trace & Hcalls & Hrun).
  destruct (GetTemplate range allowUndefined skus p ctx nc claim it extra w) as [r w'].
  cbn [fst snd] in *.
  assert (∀ id, v1alpha2.VnetSubnetID (v1alpha2.Spec nc) = Some id →
                (3 ≤ List.length (segments id))%nat → False) as Hno.
  { intros id Hid Hlen. destruct Hbad as [Hnone|(id' & Hid' & Hlen')]; [congruence|].
    rewrite Hid in Hid'. injection Hid' as <-. lia. }
  inversion Hrun; subst; try (exfalso; eapply Hno; eassumption).
  - rewrite app_nil_r in Hcalls. eauto.
  - rewrite app_nil_r in Hcalls. eauto.
Qed.

(** X7.  The collaborators are called at most once each and in one order:
    the version lookup, then the resolver, then the script rendering.  The
    lookup is the last call only when it failed, and the static parameters
    the resolver receives carry the version the lookup returned. *)
Theorem GetTemplate_call_order p ctx nc claim it extra w :
  ∃ trace,
    calls (GetTemplate range allowUndefined skus p ctx nc claim it extra w).2
    = calls w ++ trace
    ∧ (trace = []
       ∨ (trace = [KubeServerVersionCall] ∧ ∃ err, (imageProvider p ctx).2 = Some err)
       ∨ ∃ sp,
           (trace = [KubeServerVersionCall; ResolveCall sp]
            ∨ trace = [KubeServerVersionCall; ResolveCall sp; ScriptCall])
           ∧ imageProvider p ctx = (parameters.KubernetesVersion sp, None)).
Proof.
  destruct (GetTemplate_run range allowUndefined skus p ctx nc claim it extra w)
    as (trace & Hcalls & Hrun).
  exists trace. split; [exact Hcalls|].
  destruct (GetTemplate range allowUndefined skus p ctx nc claim it extra w) as [r w'].
  cbn [fst snd] in *.
  inversion Hrun as
    [ | | id sp0 v0 e0 w1 Hid Hlen Hbuilt Hv
    | id sp0 v0 pa0 e0 w1 Hid Hlen Hbuilt Hv Hres
    | id sp0 v0 w1 Hid Hlen Hbuilt Hv Hres
    | id sp0 v0 pa0 s0 e0 w1 Hid Hlen Hbuilt Hv Hres Hscript
    | id sp0 v0 pa0 s0 l0 w1 Hid Hlen Hbuilt Hv Hres Hscript Hfresh Hsome Hcontent ];
    subst; auto.
  - right. left. split; [reflexivity|]. rewrite Hv. eauto.
  - right. right. eexists. split; [left; reflexivity | exact Hv].
  - right. right. eexists. split; [left; reflexivity | exact Hv].
  - right. right. eexists. split; [right; reflexivity | exact Hv].
  - right. right. eexists. split; [right; reflexivity | exact Hv].
Qed.

(** X8.  What [NewProvider] is given reaches the resolver unchanged: the
    static parameters a run of [GetTemplate] hands to the resolver carry the
    CA bundle, endpoint, tenant, subscription, identity, resource group and
    location of the constructor, the cluster name and identifier of the
    options, the GPU flag of the instance type's name, the node class's tag
    map itself (the reference, not a copy) and the version returned by the
    lookup. *)
Theorem NewProvider_reaches_resolver resolve lookup caBundle clusterEndpoint tenantID
    subscriptionID userAssignedIdentityID resourceGroup location
    ctx nc claim it extra w trace sp :
  calls (GetTemplate range allowUndefined skus
           (NewProvider resolve lookup caBundle clusterEndpoint tenantID subscriptionID
              userAssignedIdentityID resourceGroup location)
           ctx nc claim it extra w).2
  = calls w ++ trace →
  ResolveCall sp ∈ trace →
  parameters.CABundle sp = caBundle
  ∧ parameters.ClusterEndpoint sp = clusterEndpoint
  ∧ parameters.TenantID sp = tenantID
  ∧ parameters.SubscriptionID sp = subscriptionID
  ∧ parameters.UserAssignedIdentityID sp = userAssignedIdentityID
  ∧ parameters.ResourceGroup sp = resourceGroup
  ∧ parameters.Location sp = location
  ∧ parameters.ClusterName sp = options.ClusterName (FromContext ctx)
  ∧ parameters.ClusterID sp = options.ClusterID (FromContext ctx)
  ∧ parameters.Tags sp = v1alpha2.Tags (v1alpha2.Spec nc)
  ∧ parameters.GPUNode sp = utils.IsNvidiaEnabledSKU skus (cloudprovider.Name it)
  ∧ lookup ctx = (parameters.KubernetesVersion sp, None).
Proof.
  intros Hcalls Hin.
  destruct (GetTemplate_resolver_input range allowUndefined skus _ ctx nc claim it extra
              w trace sp Hcalls Hin)
    as (labels & w0 & sp0 & w1 & version & _ & Hsp0 & Hversion & ->).
  apply getStaticParameters_fields in Hsp0.
  destruct Hsp0 as (? & ? & ? & ? & ? & ? & ? & ? & ? & ? & ? & ? & ? & _).
  repeat split; assumption.
Qed.

(** X13.  A resolver that returns neither parameters nor an error makes
    [GetTemplate] panic with a nil dereference in [createLaunchTemplate],
    after the version lookup and the resolver were called and before any
    script is rendered. *)
Theorem GetTemplate_resolver_returns_nothing p ctx nc claim it extra w id version :
  v1alpha2.VnetSubnetID (v1alpha2.Spec nc) = Some id →
  (3 ≤ List.length (segments id))%nat →
  imageProvider p ctx = (version, None) →
  (∀ sp, imageFamily p ctx nc claim it sp = (None, None)) →
  (GetTemplate range allowUndefined skus p ctx nc claim it extra w).1
  = Panics NilDereference
  ∧ ∃ sp, calls (GetTemplate range allowUndefined skus p ctx nc claim it extra w).2
          = calls w ++ [KubeServerVersionCall; ResolveCall sp].
Proof.
  intros Hid Hlen Hversion Hresolve.
  destruct (GetTemplate_run range allowUndefined skus p ctx nc claim it extra w)
    as (trace & Hcalls & Hrun).
  destruct (GetTemplate range allowUndefined skus p ctx nc claim it extra w) as [r w'].
  cbn [fst snd] in *.
  inversion Hrun; subst; try congruence;
    try match goal with
      | H : imageFamily _ _ _ _ _ _ = _ |- _ => rewrite Hresolve in H; try discriminate H
      end;
    try (rewrite Hid in *; simplify_eq; lia).
  eauto.
Qed.
End ProviderExtras.

(** ** The tag merger, again *)

Lemma mapped_size {V2} (entries : list (string * string))
    (f : string → string → string * V2) :
  (size (lo.mapped entries f) ≤ List.length entries)%nat.
Proof.
  induction entries as [|kv entries IH] using rev_ind; [by rewrite mapped_nil, map_size_empty|].
  rewrite mapped_snoc, length_app, map_size_insert. simpl.
  destruct (lo.mapped entries f !! _); simpl; lia.
Qed.

Section MergeTagsExtras.
Variable range : gmap string string → list (string * string).
Hypothesis range_order : iteration_order range.

(** X9.  Whatever the iteration order, every entry of the map [mergeTags]
    returns comes from an entry of a source: its key is the sanitized key and
    its value a non-nil pointer to the value of that entry.  The result has at
    most as many entries as the union of the sources. *)
Theorem mergeTags_entries_from_sources tags w :
  ∃ t, returned_ptrs (mergeTags range tags) w = Some t
       ∧ (∀ k2 pv, t !! k2 = Some pv →
            ∃ r k v, r ∈ tags ∧ load w r !! k = Some v
                     ∧ sanitize k = k2 ∧ pv = Some v)
       ∧ (size t ≤ size (lo.assigned (load w <$> tags)))%nat.
Proof using range_order.
  exists (merged_tags range (load w <$> tags)).
  split; [apply mergeTags_returned|]. split.
  - intros k2 pv (k & v & Hk & Hk2 & Hpv)%merged_tags_lookup_Some; [|done].
    apply assigned_lookup_Some in Hk as (m & (r & -> & Hr)%list_elem_of_fmap & Hm).
    by exists r, k, v.
  - unfold merged_tags. etrans; [apply mapped_size|].
    by rewrite (range_order _), length_map_to_list.
Qed.
End MergeTagsExtras.

Section MergeTagsOrders.
Variable range1 range2 : gmap string string → list (string * string).
Hypothesis range1_order : iteration_order range1.
Hypothesis range2_order : iteration_order range2.

(** X10.  When no two keys of the sources are stored under one sanitized
    key, the result of [mergeTags] does not depend on the order in which the
    runtime iterates the map: every entry of the union is found under its
    sanitized key. *)
Theorem mergeTags_order_independent tags w :
  collision_free (lo.assigned (load w <$> tags)) →
  returned_ptrs (mergeTags range1 tags) w = returned_ptrs (mergeTags range2 tags) w
  ∧ ∃ t, returned_ptrs (mergeTags range1 tags) w = Some t
         ∧ ∀ k v, lo.assigned (load w <$> tags) !! k = Some v →
                  t !! sanitize k = Some (to.StringPtr v).
Proof using range1_order range2_order.
  intros Hfree. rewrite !mergeTags_returned.
  assert (∀ range, iteration_order range →
            ∀ k v, lo.assigned (load w <$> tags) !! k = Some v →
                   merged_tags range (load w <$> tags) !! sanitize k
                   = Some (to.StringPtr v)) as Hlookup.
  { intros range Horder k v Hk. apply merged_tags_lookup_unique; [done..|].
    intros k' Hk' Heq. apply Hfree; eauto. }
  split; [|eauto].
  f_equal. apply map_eq. intros k2.
  destruct (merged_tags range1 (load w <$> tags) !! k2) as [pv|] eqn:H1.
  - apply merged_tags_lookup_Some in H1 as (k & v & Hk & <- & ->); [|done].
    symmetry. by apply Hlookup.
  - destruct (merged_tags range2 (load w <$> tags) !! k2) as [pv|] eqn:H2; [|done].
    apply merged_tags_lookup_Some in H2 as (k & v & Hk & <- & ->); [|done].
    by rewrite (Hlookup range1 range1_order k v Hk) in H1.
Qed.
End MergeTagsOrders.

Section MergeTagsClean.
Variable range : gmap string string → list (string * string).
Hypothesis range_order : iteration_order range.

(** X11.  For sources whose keys contain no ["/"], [mergeTags] returns the
    later-wins union of the sources with every value behind a pointer, keys
    unchanged, whatever the iteration order. *)
Theorem mergeTags_without_slashes tags w :
  (∀ r k, r ∈ tags → is_Some (load w r !! k) → Strings.Contains k "/" = false) →
  returned_ptrs (mergeTags range tags) w
  = Some (to.StringPtr <$> lo.assigned (load w <$> tags)).
Proof using range_order.
  intros Hclean. rewrite mergeTags_returned. f_equal.
  assert (∀ k, is_Some (lo.assigned (load w <$> tags) !! k) → sanitize k = k) as Hid.
  { intros k [v (m & (r & -> & Hr)%list_elem_of_fmap & Hm)%assigned_lookup_Some].
    apply ReplaceAll_id. apply (Hclean r); eauto. }
  apply map_eq. intros k2. rewrite lookup_fmap.
  destruct (lo.assigned (load w <$> tags) !! k2) as [v|] eqn:Hk2.
  - rewrite <-(Hid k2) at 1 by eauto.
    apply merged_tags_lookup_unique; [done..|].
    intros k' Hk' Heq. rewrite (Hid k'), (Hid k2) in Heq by eauto. done.
  - destruct (merged_tags range (load w <$> tags) !! k2) as [pv|] eqn:Hpv; [|done].
    apply merged_tags_lookup_Some in Hpv as (k & v & Hk & Heq & _); [|done].
    rewrite (Hid k) in Heq by eauto. subst k. congruence.
Qed.

(** X12.  When the resolver's tags are nil or empty and the script renders,
    the tags of the template are exactly the cluster marker, stored under the
    sanitized key. *)
Theorem createLaunchTemplate_without_tags params script w :
  parameters.UserData params = (script, None) →
  valid w (parameters.PTags params) →
  load w (parameters.PTags params) = ∅ →
  template_tags (createLaunchTemplate range (Some params) w)
  = Some {[sanitize karpenterManagedTagKey := to.StringPtr (parameters.PClusterName params)]}.
Proof using range_order.
  intros Hscript Hvalid Hempty.
  destruct (createLaunchTemplate_returns range params script w Hscript)
    as (l & w' & Hrun & _ & _ & _ & _ & Hcontent).
  rewrite Hrun. unfold template_tags, load_ptrs. cbn [Tags].
  rewrite (Hcontent Hvalid), Hempty. cbn [default from_option id]. f_equal.
  pose proof (marker_tags_facts range range_order ∅ (parameters.PClusterName params))
    as Hfacts.
  cbv zeta in Hfacts. destruct Hfacts as (_ & _ & Hdom & _ & Hmarker & _).
  apply map_eq. intros k2.
  destruct (decide (k2 = sanitize karpenterManagedTagKey)) as [->|Hne].
  - rewrite lookup_singleton_eq. apply Hmarker. apply lookup_empty.
  - rewrite lookup_singleton_ne; [|intros Heq; apply Hne; symmetry; exact Heq].
    apply (not_elem_of_dom (D:=gset string)).
    rewrite Hdom, dom_empty_L, (right_id_L ∅ (∪)), set_map_singleton_L.
    intros Hk%elem_of_singleton. exact (Hne Hk).
Qed.
End MergeTagsClean.

(** ** Witnesses *)

Lemma labelled_trace_resolve :
  ∃ sp, ResolveCall sp ∈ labelled_trace.
Proof.
  eexists. unfold labelled_trace. apply elem_of_cons. right. apply elem_of_cons. left.
  reflexivity.
Defined.

Lemma GetTemplate_vnet_labels_win_witness :
  load labelled (Some 1%positive) !! vnetSubnetNameLabel = Some "claim"
  ∧ ∃ sp, ResolveCall sp ∈ labelled_trace
          ∧ load labelled_run.2 (parameters.Labels sp) !! vnetSubnetNameLabel
            = Some "subnet1".
Proof.
  split; [vm_compute; reflexivity|].
  assert (calls labelled_run.2 = calls labelled ++ labelled_trace) as Hcalls
    by (vm_compute; reflexivity).
  destruct labelled_trace_resolve as [sp Hin]. exists sp. split; [exact Hin|].
  unfold labelled_run in *.
  destruct (GetTemplate_vnet_labels_win map_to_list ∅ no_gpu working_provider
              example_context (nodeClass_of (Some subnet1) None)
              {| corev1beta1.Labels := Some 1%positive |} amd64_instance
              (Some 2%positive) labelled labelled_trace sp Hcalls Hin)
    as (id & labels & Hid & <- & _ & _ & _ & _ & Hsubnet & _).
  injection Hid as <-. rewrite Hsubnet. vm_compute. reflexivity.
Defined.

Lemma GetTemplate_panics_before_calls_witness :
  (∃ pn, (GetTemplate map_to_list ∅ no_gpu working_provider example_context
            (nodeClass_of None None) {| corev1beta1.Labels := None |} amd64_instance
            None fallback_world).1 = Panics pn)
  ∧ calls (GetTemplate map_to_list ∅ no_gpu working_provider example_context
             (nodeClass_of None None) {| corev1beta1.Labels := None |} amd64_instance
             None fallback_world).2 = calls fallback_world.
Proof.
  apply (GetTemplate_panics_before_calls map_to_list ∅ no_gpu working_provider
           example_context (nodeClass_of None None)).
  left. reflexivity.
Defined.

Lemma NewProvider_reaches_resolver_witness :
  ∃ sp, ResolveCall sp ∈ labelled_trace
        ∧ parameters.TenantID sp = "tenant"
        ∧ parameters.SubscriptionID sp = "sub1"
        ∧ parameters.KubernetesVersion sp = "1.29".
Proof.
  assert (calls (GetTemplate map_to_list ∅ no_gpu
                   (NewProvider (λ _ _ _ _ sp, (Some (resolved sp), None))
                      (λ _, ("1.29", None)) None "https://cluster1" "tenant" "sub1"
                      "identity" "rg" "westus")
                   example_context (nodeClass_of (Some subnet1) None)
                   {| corev1beta1.Labels := Some 1%positive |} amd64_instance
                   (Some 2%positive) labelled).2
          = calls labelled ++ labelled_trace) as Hcalls
    by (vm_compute; reflexivity).
  destruct labelled_trace_resolve as [sp Hin]. exists sp. split; [exact Hin|].
  destruct (NewProvider_reaches_resolver _ _ _ _ _ _ _ _ _ _ _ _ _ _ _ _ _ _ _ _
              Hcalls Hin)
    as (_ & _ & Htenant & Hsub & _ & _ & _ & _ & _ & _ & _ & Hversion).
  split; [exact Htenant|]. split; [exact Hsub|]. by injection Hversion.
Defined.

Lemma GetTemplate_resolver_returns_nothing_witness :
  (GetTemplate map_to_list ∅ no_gpu silent_provider example_context
     (nodeClass_of (Some subnet1) None) {| corev1beta1.Labels := None |}
     amd64_instance None empty_world).1 = Panics NilDereference.
Proof.
  apply (GetTemplate_resolver_returns_nothing map_to_list ∅ no_gpu silent_provider
           example_context (nodeClass_of (Some subnet1) None)
           {| corev1beta1.Labels := None |} amd64_instance None empty_world
           subnet1 "1.29").
  - reflexivity.
  - vm_compute. lia.
  - reflexivity.
  - intros sp. reflexivity.
Defined.

Lemma mergeTags_entries_from_sources_witness :
  ∃ t, returned_ptrs (mergeTags map_to_list [Some 1%positive; Some 2%positive])
         colliding_tags = Some t
       ∧ (size t ≤ 2)%nat.
Proof.
  destruct (mergeTags_entries_from_sources map_to_list map_to_list_order
              [Some 1%positive; Some 2%positive] colliding_tags)
    as (t & Ht & _ & Hsize).
  exists t. split; [exact Ht|]. exact Hsize.
Defined.

Lemma mergeTags_order_independent_witness :
  returned_ptrs (mergeTags map_to_list [Some 1%positive; Some 2%positive]) scenario_tags
  = returned_ptrs (mergeTags reversed [Some 1%positive; Some 2%positive]) scenario_tags.
Proof.
  apply (mergeTags_order_independent map_to_list reversed map_to_list_order
           reversed_order [Some 1%positive; Some 2%positive] scenario_tags).
  exact scenario_collision_free.
Defined.

Lemma mergeTags_without_slashes_witness :
  returned_ptrs (mergeTags reversed [Some 1%positive; Some 2%positive])
    (two_maps {["a" := "1"; "b" := "1"]} {["b" := "2"]})
  = Some (to.StringPtr
            <$> lo.assigned (load (two_maps {["a" := "1"; "b" := "1"]} {["b" := "2"]})
                               <$> [Some 1%positive; Some 2%positive])).
Proof.
  apply (mergeTags_without_slashes reversed reversed_order).
  intros r k [->|Hr]%elem_of_cons [v Hv].
  - rewrite load_two_maps_1 in Hv.
    apply lookup_insert_Some in Hv as [[<- _]|[_ Hv]]; [reflexivity|].
    apply lookup_singleton_Some in Hv as [<- _]. reflexivity.
  - apply list_elem_of_singleton in Hr as ->. rewrite load_two_maps_2 in Hv.
    apply lookup_singleton_Some in Hv as [<- _]. reflexivity.
Defined.

Lemma createLaunchTemplate_without_tags_witness :
  template_tags (createLaunchTemplate reversed (Some (parameters_of None)) empty_world)
  = Some {[sanitize karpenterManagedTagKey := to.StringPtr "cluster1"]}.
Proof.
  apply (createLaunchTemplate_without_tags reversed reversed_order (parameters_of None)
           "#!/bin/bash" empty_world); [reflexivity | exact I | reflexivity].
Defined.
